(** * ScanBack backend: code lifecycle and public-lookup engine

    A shallow embedding of [src/models/QRCode.js], of the service class
    [QRService] (the cached version, with [qrCache] and [requestQueue]) and of
    the handlers of [src/routes/qr.js] that drive it, together with the
    properties of the lifecycle that the specification states.

    Conventions.
    - A JavaScript [Date] and the result of [Date.now()] are milliseconds
      since the epoch, in [Z]. Every reading of the clock that a function
      makes is an explicit argument of its model, in the order of the reads.
    - A value that may be [undefined] or [null] is an [option].
    - A thrown [Error] is [Err msg], carrying the message of the source.
    - The MongoDB collection is a finite map from [code] (the unique key
      that every query of the service filters on) to documents, and the
      store answers every call (the query of the public lookup may also
      fail, in the model of section 4).
    - Logging, the sending of mail and the statistics kept on the users
      are left out: none of them reads or writes what is modelled here. *)

From Stdlib Require Import ZArith Lia Ascii.
From stdpp Require Import gmap strings list fin_maps.

Local Open Scope string_scope.
Local Open Scope list_scope.
Local Open Scope Z_scope.

(* ===================================================================== *)
(** * 1. The data model ([src/models/QRCode.js])                          *)
(* ===================================================================== *)

(** [contact.location]: address, city, country and coordinates. *)
Record geo := {
  address : string;
  city : string;
  country : string;
  lat : Z;
  lng : Z
}.

(** Values stored in the free-form subdocuments [details], [contact] and
    [settings]. *)
Inductive jsval :=
| JStr (s : string)
| JNum (n : Z)
| JBool (b : bool)
| JDate (t : Z)
| JGeo (g : geo).

(** A plain JavaScript object with string keys. *)
Abbreviation obj := (gmap string jsval).

(** [status: enum ['active', 'inactive', 'suspended', 'found']]. *)
Inductive status_t := active | inactive | suspended | found.

(** [type: enum ['item', 'pet']]. *)
Inductive type_t := item | pet.

(** One element of [metadata.scanHistory]. *)
Record scan := {
  scannedAt : Z;
  ipAddress : string;
  userAgent : string;
  location : string
}.

(** The subdocument [foundBy]. *)
Record finder := {
  finderName : option string;
  finderPhone : option string;
  finderEmail : option string;
  foundDate : Z;
  foundLocation : option string;
  notes : option string
}.

(** The subdocument [updateOTP]; each of its four paths may be unset. *)
Record otp := {
  otp_code : option string;
  expires : option Z;
  newEmail : option string;
  newPhone : option string
}.

(** A document of the collection. [owner] is the string form of the
    [ObjectId] of the owning user. *)
Record qrdoc := {
  doc_id : string;
  code : string;
  type : type_t;
  owner : option string;
  details : obj;
  contact : obj;
  settings : obj;
  status : status_t;
  isActivated : bool;
  activationDate : option Z;
  lastScanned : option Z;
  scanCount : Z;
  foundBy : option finder;
  qrImageUrl : option string;
  scanHistory : list scan;
  updateOTP : option otp
}.

#[global] Instance geo_eq_dec : EqDecision geo.
Proof. solve_decision. Defined.
#[global] Instance jsval_eq_dec : EqDecision jsval.
Proof. solve_decision. Defined.
#[global] Instance status_eq_dec : EqDecision status_t.
Proof. solve_decision. Defined.
#[global] Instance type_eq_dec : EqDecision type_t.
Proof. solve_decision. Defined.

(** Field updates: [set_f x d] is [d] after the assignment [d.f = x]. *)
Definition set_owner (x : option string) (d : qrdoc) : qrdoc :=
  {| doc_id := doc_id d; code := code d; type := type d; owner := x;
     details := details d; contact := contact d; settings := settings d;
     status := status d; isActivated := isActivated d;
     activationDate := activationDate d; lastScanned := lastScanned d;
     scanCount := scanCount d; foundBy := foundBy d;
     qrImageUrl := qrImageUrl d; scanHistory := scanHistory d;
     updateOTP := updateOTP d |}.

Definition set_details (x : obj) (d : qrdoc) : qrdoc :=
  {| doc_id := doc_id d; code := code d; type := type d; owner := owner d;
     details := x; contact := contact d; settings := settings d;
     status := status d; isActivated := isActivated d;
     activationDate := activationDate d; lastScanned := lastScanned d;
     scanCount := scanCount d; foundBy := foundBy d;
     qrImageUrl := qrImageUrl d; scanHistory := scanHistory d;
     updateOTP := updateOTP d |}.

Definition set_contact (x : obj) (d : qrdoc) : qrdoc :=
  {| doc_id := doc_id d; code := code d; type := type d; owner := owner d;
     details := details d; contact := x; settings := settings d;
     status := status d; isActivated := isActivated d;
     activationDate := activationDate d; lastScanned := lastScanned d;
     scanCount := scanCount d; foundBy := foundBy d;
     qrImageUrl := qrImageUrl d; scanHistory := scanHistory d;
     updateOTP := updateOTP d |}.

Definition set_settings (x : obj) (d : qrdoc) : qrdoc :=
  {| doc_id := doc_id d; code := code d; type := type d; owner := owner d;
     details := details d; contact := contact d; settings := x;
     status := status d; isActivated := isActivated d;
     activationDate := activationDate d; lastScanned := lastScanned d;
     scanCount := scanCount d; foundBy := foundBy d;
     qrImageUrl := qrImageUrl d; scanHistory := scanHistory d;
     updateOTP := updateOTP d |}.

Definition set_status (x : status_t) (d : qrdoc) : qrdoc :=
  {| doc_id := doc_id d; code := code d; type := type d; owner := owner d;
     details := details d; contact := contact d; settings := settings d;
     status := x; isActivated := isActivated d;
     activationDate := activationDate d; lastScanned := lastScanned d;
     scanCount := scanCount d; foundBy := foundBy d;
     qrImageUrl := qrImageUrl d; scanHistory := scanHistory d;
     updateOTP := updateOTP d |}.

Definition set_isActivated (x : bool) (d : qrdoc) : qrdoc :=
  {| doc_id := doc_id d; code := code d; type := type d; owner := owner d;
     details := details d; contact := contact d; settings := settings d;
     status := status d; isActivated := x;
     activationDate := activationDate d; lastScanned := lastScanned d;
     scanCount := scanCount d; foundBy := foundBy d;
     qrImageUrl := qrImageUrl d; scanHistory := scanHistory d;
     updateOTP := updateOTP d |}.

Definition set_activationDate (x : option Z) (d : qrdoc) : qrdoc :=
  {| doc_id := doc_id d; code := code d; type := type d; owner := owner d;
     details := details d; contact := contact d; settings := settings d;
     status := status d; isActivated := isActivated d;
     activationDate := x; lastScanned := lastScanned d;
     scanCount := scanCount d; foundBy := foundBy d;
     qrImageUrl := qrImageUrl d; scanHistory := scanHistory d;
     updateOTP := updateOTP d |}.

Definition set_lastScanned (x : option Z) (d : qrdoc) : qrdoc :=
  {| doc_id := doc_id d; code := code d; type := type d; owner := owner d;
     details := details d; contact := contact d; settings := settings d;
     status := status d; isActivated := isActivated d;
     activationDate := activationDate d; lastScanned := x;
     scanCount := scanCount d; foundBy := foundBy d;
     qrImageUrl := qrImageUrl d; scanHistory := scanHistory d;
     updateOTP := updateOTP d |}.

Definition set_scanCount (x : Z) (d : qrdoc) : qrdoc :=
  {| doc_id := doc_id d; code := code d; type := type d; owner := owner d;
     details := details d; contact := contact d; settings := settings d;
     status := status d; isActivated := isActivated d;
     activationDate := activationDate d; lastScanned := lastScanned d;
     scanCount := x; foundBy := foundBy d;
     qrImageUrl := qrImageUrl d; scanHistory := scanHistory d;
     updateOTP := updateOTP d |}.

Definition set_foundBy (x : option finder) (d : qrdoc) : qrdoc :=
  {| doc_id := doc_id d; code := code d; type := type d; owner := owner d;
     details := details d; contact := contact d; settings := settings d;
     status := status d; isActivated := isActivated d;
     activationDate := activationDate d; lastScanned := lastScanned d;
     scanCount := scanCount d; foundBy := x;
     qrImageUrl := qrImageUrl d; scanHistory := scanHistory d;
     updateOTP := updateOTP d |}.

Definition set_scanHistory (x : list scan) (d : qrdoc) : qrdoc :=
  {| doc_id := doc_id d; code := code d; type := type d; owner := owner d;
     details := details d; contact := contact d; settings := settings d;
     status := status d; isActivated := isActivated d;
     activationDate := activationDate d; lastScanned := lastScanned d;
     scanCount := scanCount d; foundBy := foundBy d;
     qrImageUrl := qrImageUrl d; scanHistory := x;
     updateOTP := updateOTP d |}.

Definition set_updateOTP (x : option otp) (d : qrdoc) : qrdoc :=
  {| doc_id := doc_id d; code := code d; type := type d; owner := owner d;
     details := details d; contact := contact d; settings := settings d;
     status := status d; isActivated := isActivated d;
     activationDate := activationDate d; lastScanned := lastScanned d;
     scanCount := scanCount d; foundBy := foundBy d;
     qrImageUrl := qrImageUrl d; scanHistory := scanHistory d;
     updateOTP := x |}.

(** [x || 'unknown'] on a string that may be missing: [undefined], [null]
    and the empty string are falsy. *)
Definition or_unknown (x : option string) : string :=
  match x with
  | Some s => if decide (s = "") then "unknown" else s
  | None => "unknown"
  end.

(** [a.slice(-n)]: the last [n] elements ([a] itself when it is shorter). *)
Definition slice_last {A} (n : nat) (a : list A) : list A :=
  drop (length a - n)%nat a.

(** [qrCodeSchema.methods.incrementScanCount]. [t1] and [t2] are the two
    [new Date()] of the body, in order. *)
Definition incrementScanCount (ip ua loc : option string) (t1 t2 : Z)
    (d : qrdoc) : qrdoc :=
  let d1 := set_scanCount (scanCount d + 1) d in
  let d2 := set_lastScanned (Some t1) d1 in
  let d3 := set_scanHistory (scanHistory d2 ++
      [ {| scannedAt := t2; ipAddress := or_unknown ip;
           userAgent := or_unknown ua; location := or_unknown loc |} ]) d2 in
  if decide (50 < length (scanHistory d3))%nat
  then set_scanHistory (slice_last 50 (scanHistory d3)) d3
  else d3.

(** The argument of [markAsFound]: the properties that the method reads. *)
Record finderDetails := {
  fd_name : option string;
  fd_phone : option string;
  fd_email : option string;
  fd_location : option string;
  fd_notes : option string
}.

(** [qrCodeSchema.methods.markAsFound]. *)
Definition markAsFound (fd : finderDetails) (t : Z) (d : qrdoc) : qrdoc :=
  set_foundBy (Some {| finderName := fd_name fd; finderPhone := fd_phone fd;
                       finderEmail := fd_email fd; foundDate := t;
                       foundLocation := fd_location fd; notes := fd_notes fd |})
    (set_status found d).

(* ===================================================================== *)
(** * 2. The service ([QRService])                                        *)
(* ===================================================================== *)

(** The outcome of a call: the returned value, or the message of the
    [Error] thrown. *)
Inductive result (A : Type) :=
| Ok (a : A)
| Err (msg : string).
Arguments Ok {A} a.
Arguments Err {A} msg.

(** What the projection of [fetchQRCodeFromDatabase] keeps of a document
    ([_id] comes with every projection that does not exclude it). *)
Record view := {
  v_id : string;
  v_code : string;
  v_type : type_t;
  v_isActivated : bool;
  v_status : status_t;
  v_details : obj;
  v_contact : obj;
  v_settings : obj
}.

(** A value of [qrCache]. *)
Record cache_entry := {
  data : view;
  timestamp : Z
}.

(** The state that the service works on: the collection, the two
    module-level maps, and (as a ghost trace) the codes of the queries that
    [fetchQRCodeFromDatabase] has sent to the collection. An entry of
    [requestQueue] is the pending promise of a fetch; the map holds the
    codes that have one. *)
Record world := {
  db : gmap string qrdoc;
  qrCache : gmap string cache_entry;
  requestQueue : gset string;
  queries : list string
}.

Definition set_db (x : gmap string qrdoc) (w : world) : world :=
  {| db := x; qrCache := qrCache w; requestQueue := requestQueue w;
     queries := queries w |}.

Definition set_qrCache (x : gmap string cache_entry) (w : world) : world :=
  {| db := db w; qrCache := x; requestQueue := requestQueue w;
     queries := queries w |}.

Definition set_requestQueue (x : gset string) (w : world) : world :=
  {| db := db w; qrCache := qrCache w; requestQueue := x;
     queries := queries w |}.

Definition set_queries (x : list string) (w : world) : world :=
  {| db := db w; qrCache := qrCache w; requestQueue := requestQueue w;
     queries := x |}.

(** [const CACHE_TTL = 10 * 60 * 1000]. *)
Definition CACHE_TTL : Z := 10 * 60 * 1000.

(** [`qr_${code}`]. *)
Definition cacheKey (c : string) : string := "qr_" +:+ c.

(** [QRCodeModel.findOne({ code })]: the document stored for [c] whose
    [code] field is [c]. *)
Definition findOne (m : gmap string qrdoc) (c : string) : option qrdoc :=
  match m !! c with
  | Some d => if decide (code d = c) then Some d else None
  | None => None
  end.

(** The paths of the projection of [fetchQRCodeFromDatabase]. *)
Definition details_public : list string :=
  ["name"; "description"; "image"; "category"; "color"; "brand"; "model";
   "emergencyDetails"; "pedigreeInfo"; "microchipId";
   "medicalNotes"; "vetName"; "vetPhone"; "vetCountryCode";
   "emergencyContact"; "emergencyCountryCode";
   "breed"; "age"; "registrationNumber"; "breederInfo"].

Definition contact_public : list string :=
  ["name"; "phone"; "email"; "message"].

Definition settings_public : list string :=
  ["instantAlerts"; "locationSharing"; "showContactOnFinderPage"].

(** The part of an object that lies on the listed paths. *)
Definition pick (keys : list string) (o : obj) : obj :=
  filter (λ kv, kv.1 ∈ keys) o.

(** The projection itself. *)
Definition project (d : qrdoc) : view :=
  {| v_id := doc_id d; v_code := code d; v_type := type d;
     v_isActivated := isActivated d; v_status := status d;
     v_details := pick details_public (details d);
     v_contact := pick contact_public (contact d);
     v_settings := pick settings_public (settings d) |}.

(** The test of [getQRCodeByCodePublic] on the cache:
    [cached && (Date.now() - cached.timestamp) < CACHE_TTL]. *)
Definition cache_get (m : gmap string cache_entry) (c : string) (now : Z)
    : option view :=
  match m !! cacheKey c with
  | Some e => if decide (now - timestamp e < CACHE_TTL) then Some (data e) else None
  | None => None
  end.

(** [cleanupCache], reading the clock as [now]. *)
Definition cleanupCache (now : Z) (m : gmap string cache_entry)
    : gmap string cache_entry :=
  filter (λ kv, ¬ (CACHE_TTL < now - timestamp kv.2)) m.

(** [fetchQRCodeFromDatabase] up to its [await]: the query is sent. *)
Definition fetch_begin (c : string) (w : world) : world :=
  set_queries (queries w ++ [c]) w.

(** [fetchQRCodeFromDatabase] from its [await] on. [q] is what the query
    settled with: the document, nothing, or a failure of the store such as
    the timeout of [maxTimeMS(5000)]. [t_ins] is the [Date.now()] of the
    cache entry and [t_sweep] the one of [cleanupCache]. *)
Definition fetch_settle (c : string) (q : result (option qrdoc))
    (t_ins t_sweep : Z) (w : world) : result view * world :=
  match q with
  | Err msg => (Err msg, w)
  | Ok None => (Err "QR code not found", w)
  | Ok (Some d) =>
      (Ok (project d),
       set_qrCache
         (cleanupCache t_sweep
            (<[cacheKey c := {| data := project d; timestamp := t_ins |}]>
               (qrCache w))) w)
  end.

(** The [catch] of [getQRCodeByCodePublic]. *)
Definition wrap {A} (prefix : string) (r : result A) : result A :=
  match r with
  | Ok a => Ok a
  | Err msg => Err (prefix +:+ msg)
  end.

(** [getQRCodeByCodePublic], run until it returns, with a store that
    answers. [now] is the clock at the test of the cache. When the code has
    a fetch in flight the caller awaits that promise; otherwise it starts the
    fetch and registers it. By the time the caller has its result the promise
    has settled and the [finally] of the caller that registered it has
    removed the registration. *)
Definition getQRCodeByCodePublic (c : string) (now t_ins t_sweep : Z)
    (w : world) : result view * world :=
  match cache_get (qrCache w) c now with
  | Some v => (Ok v, w)
  | None =>
      let w1 :=
        if decide (c ∈ requestQueue w) then w
        else set_requestQueue ({[c]} ∪ requestQueue w) (fetch_begin c w) in
      let '(r, w2) := fetch_settle c (Ok (findOne (db w1) c)) t_ins t_sweep w1 in
      (wrap "Failed to get QR code: " r,
       set_requestQueue (requestQueue w2 ∖ {[c]}) w2)
  end.

(** [getQRCodeByCodeForOwnership]. *)
Definition getQRCodeByCodeForOwnership (c : string) (w : world)
    : result qrdoc :=
  match findOne (db w) c with
  | Some d => Ok d
  | None => Err "Failed to get QR code: QR code not found"
  end.

(** Truthiness of a value, as [||] and [if] test it. *)
Definition truthy (v : jsval) : bool :=
  match v with
  | JStr s => if decide (s = "") then false else true
  | JNum n => if decide (n = 0) then false else true
  | JBool b => b
  | JDate _ => true
  | JGeo _ => true
  end.

(** [{ ...a, ...b }]: the properties of [b] win. *)
Definition spread2 (a b : obj) : obj := b ∪ a.

(** A spread of a value that may be [undefined] adds nothing. *)
Definition opt_obj (o : option obj) : obj := default ∅ o.

(** The body of [req] that [activateQRCode] reads. *)
Record activationData := {
  a_details : option obj;
  a_contact : option obj;
  a_settings : option obj
}.

(** The location literal that [activateQRCode] falls back to. *)
Definition empty_location : jsval :=
  JGeo {| address := ""; city := ""; country := ""; lat := 0; lng := 0 |}.

(** The message of the [TypeError] of a property read on [undefined]. *)
Definition TypeError (prop : string) : string :=
  "Cannot read properties of undefined (reading '" +:+ prop +:+ "')".

(** [qrCache.delete(cacheKey)] after a write. *)
Definition evict (c : string) (w : world) : world :=
  set_qrCache (delete (cacheKey c) (qrCache w)) w.

(** [qrCode.save()] of a document that [findOne({ code: c })] returned.
    Documents are taken to pass the validation of the schema. *)
Definition save (c : string) (d : qrdoc) (w : world) : world :=
  set_db (<[c := d]> (db w)) w.

(** [activateQRCode]. [t] is the [new Date()] of [activationDate]. *)
Definition activateQRCode (c : string) (act : activationData)
    (ownerId : string) (t : Z) (w : world) : result qrdoc * world :=
  match findOne (db w) c with
  | None => (Err "Failed to activate QR code: QR code not found", w)
  | Some d =>
      if isActivated d
      then (Err "Failed to activate QR code: QR code is already activated", w)
      else
        match a_contact act with
        | None => (Err ("Failed to activate QR code: " +:+ TypeError "location"), w)
        | Some ac =>
            let d1 := set_isActivated true d in
            let d2 := set_activationDate (Some t) d1 in
            let d3 := set_owner (Some ownerId) d2 in
            let d4 := set_details (spread2 (details d3) (opt_obj (a_details act))) d3 in
            let loc := match ac !! "location" with
                       | Some v => if truthy v then v else empty_location
                       | None => empty_location
                       end in
            let d5 := set_contact (<["location" := loc]> (spread2 (contact d4) ac)) d4 in
            let d6 := set_settings (spread2 (settings d5) (opt_obj (a_settings act))) d5 in
            (Ok d6, evict c (save c d6 w))
        end
  end.

(** The [scanData] that the scan routes build from the request. *)
Record scanData := {
  sd_ipAddress : option string;
  sd_userAgent : option string;
  sd_location : option string
}.

(** [handleScan]. The value is the [qrCode] of the object returned; its
    [scanData] part reads [qrCode.owner.name], which throws after the write
    when the document has no owner. *)
Definition handleScan (c : string) (sd : scanData) (t1 t2 : Z) (w : world)
    : result qrdoc * world :=
  match findOne (db w) c with
  | None => (Err "Failed to handle scan: QR code not found", w)
  | Some d =>
      if negb (isActivated d)
      then (Err "Failed to handle scan: QR code is not activated yet", w)
      else
        let d' := incrementScanCount (sd_ipAddress sd) (sd_userAgent sd)
                    (sd_location sd) t1 t2 d in
        let w' := evict (code d') (save c d' w) in
        match owner d' with
        | Some _ => (Ok d', w')
        | None => (Err ("Failed to handle scan: " +:+ TypeError "name"), w')
        end
  end.

(** [trackScan]; it returns [scanCount] and [lastScanned]. *)
Definition trackScan (c : string) (sd : scanData) (t1 t2 : Z) (w : world)
    : result (Z * option Z) * world :=
  match findOne (db w) c with
  | None => (Err "Failed to track scan: QR code not found", w)
  | Some d =>
      if negb (isActivated d)
      then (Err "Failed to track scan: QR code is not activated yet", w)
      else
        let d' := incrementScanCount (sd_ipAddress sd) (sd_userAgent sd)
                    (sd_location sd) t1 t2 d in
        (Ok (scanCount d', lastScanned d'), evict (code d') (save c d' w))
  end.

(** [reportFound]; the statistics of the owner live in another collection. *)
Definition reportFound (c : string) (fd : finderDetails) (t : Z) (w : world)
    : result qrdoc * world :=
  match findOne (db w) c with
  | None => (Err "Failed to report as found: QR code not found", w)
  | Some d =>
      if decide (status d = found)
      then (Err "Failed to report as found: Item/Pet is already marked as found", w)
      else
        let d' := markAsFound fd t d in
        (Ok d', evict (code d') (save c d' w))
  end.

(** The body of [req] that [updateQRCode] reads. *)
Record updateData := {
  u_details : option obj;
  u_contact : option obj;
  u_settings : option obj
}.

(** [$set] of one path, when [updateFields] has it. *)
Definition set_if {A} (f : A → qrdoc → qrdoc) (x : option A) (d : qrdoc)
    : qrdoc :=
  match x with
  | Some a => f a d
  | None => d
  end.

(** [updateQRCode]: [findOneAndUpdate({ code }, { $set: updateFields })]
    where [updateFields] has each of the three subdocuments that
    [updateData] has, whole. *)
Definition updateQRCode (c : string) (upd : updateData) (w : world)
    : result qrdoc * world :=
  match findOne (db w) c with
  | None => (Err "Failed to update QR code: QR code not found", w)
  | Some d =>
      let d' := set_if set_settings (u_settings upd)
                  (set_if set_contact (u_contact upd)
                     (set_if set_details (u_details upd) d)) in
      (Ok d', save c d' w)
  end.

(** [deactivateQRCode]. *)
Definition deactivateQRCode (c : string) (w : world) : result qrdoc * world :=
  match findOne (db w) c with
  | None => (Err "Failed to deactivate QR code: QR code not found", w)
  | Some d =>
      let d' := set_isActivated false (set_status inactive d) in
      (Ok d', save c d' w)
  end.

(** [toggleQRCodeStatus]. The [lastModified] of the update is not a path of
    the schema and is not stored. *)
Definition toggleQRCodeStatus (c : string) (newStatus : status_t) (w : world)
    : result qrdoc * world :=
  match findOne (db w) c with
  | None => (Err "Failed to toggle QR code status: QR code not found", w)
  | Some d =>
      let d' := set_status newStatus d in
      (Ok d', save c d' w)
  end.

(** [storeUpdateOTP]: the four paths of [updateOTP] are set; nothing
    happens when no document matches. *)
Definition storeUpdateOTP (c : string) (o : string) (exp : Z)
    (ne np : option string) (w : world) : world :=
  match findOne (db w) c with
  | None => w
  | Some d =>
      save c (set_updateOTP (Some {| otp_code := Some o; expires := Some exp;
                                     newEmail := ne; newPhone := np |}) d) w
  end.

(** [new Date() < new Date(x)] for a stored date [x]; an unset [x] gives
    an invalid date, and every comparison with it is false. *)
Definition before (now : Z) (x : option Z) : bool :=
  match x with
  | Some e => bool_decide (now < e)
  | None => false
  end.

(** [verifyUpdateOTP]; [now] is its [new Date()]. *)
Definition verifyUpdateOTP (c : string) (o : string) (now : Z) (w : world)
    : bool :=
  match findOne (db w) c with
  | None => false
  | Some d =>
      match updateOTP d with
      | None => false
      | Some u =>
          if bool_decide (otp_code u = Some o) && before now (expires u)
          then true
          else false
      end
  end.

(** [clearUpdateOTP]: [$unset] of the four paths. The subdocument itself,
    when it was there, stays as an empty object. *)
Definition clearUpdateOTP (c : string) (w : world) : world :=
  match findOne (db w) c with
  | None => w
  | Some d =>
      save c (set_updateOTP
                (match updateOTP d with
                 | Some _ => Some {| otp_code := None; expires := None;
                                     newEmail := None; newPhone := None |}
                 | None => None
                 end) d) w
  end.

(* ===================================================================== *)
(** * 3. The handlers of [src/routes/qr.js]                               *)
(* ===================================================================== *)

(** [res.status(http).json({ success, message, data })]. *)
Record response (A : Type) := {
  http : Z;
  success : bool;
  message : string;
  body : option A
}.
Arguments http {A} r.
Arguments success {A} r.
Arguments message {A} r.
Arguments body {A} r.

Definition reply {A} (h : Z) (s : bool) (m : string) (b : option A)
    : response A :=
  {| http := h; success := s; message := m; body := b |}.

(** The ownership test of the private routes, after [auth] has put the
    user of the token in [req.user]:
    [qrCode.owner.toString() !== req.user.id]. It answers [inl] with the
    refusal, or [inr] with the document read. *)
Definition verify_ownership {A} (user : string) (c : string) (w : world)
    : response A + qrdoc :=
  match getQRCodeByCodeForOwnership c w with
  | Err m => inl (reply 500 false m None)
  | Ok d =>
      match owner d with
      | None => inl (reply 500 false (TypeError "toString") None)
      | Some o =>
          if decide (o = user) then inr d
          else inl (reply 403 false "Access denied" None)
      end
  end.

(** [GET /:code]. *)
Definition get_code (c : string) (now t_ins t_sweep : Z) (w : world)
    : response view * world :=
  match getQRCodeByCodePublic c now t_ins t_sweep w with
  | (Err m, w') => (reply 404 false m None, w')
  | (Ok v, w') =>
      if decide (v_status v = inactive)
      then (reply 403 false
              "This QR code is currently inactive. The owner has temporarily disabled it."
              None, w')
      else (reply 200 true "" (Some v), w')
  end.

(** [POST /:code/activate], from the test of the existing code on. The
    first part of the handler finds the user with the e-mail address of the
    request, or creates it; [uid] is [user._id.toString()] of that user.
    The request has passed the validators. *)
Definition post_activate (uid : string) (c : string) (act : activationData)
    (t : Z) (w : world) : response qrdoc * world :=
  match getQRCodeByCodeForOwnership c w with
  | Err m => (reply 400 false m None, w)
  | Ok existingQRCode =>
      if isActivated existingQRCode
      then
        match owner existingQRCode with
        | Some o =>
            if decide (o = uid)
            then (reply 200 true "QR code is already activated by you"
                    (Some existingQRCode), w)
            else (reply 400 false
                    "This QR code has already been activated by another user"
                    None, w)
        | None => (reply 400 false
                     "This QR code has already been activated by another user"
                     None, w)
        end
      else
        match activateQRCode c act uid t w with
        | (Ok d, w') => (reply 200 true "QR code activated successfully" (Some d), w')
        | (Err m, w') => (reply 400 false m None, w')
        end
  end.

(** [POST /:code/send-update-otp]. [o] is the six-digit string drawn with
    [Math.random] and [now] the clock; sending the mail is not modelled. *)
Definition post_send_update_otp (user : string) (c : string)
    (ne np : option string) (o : string) (now : Z) (w : world)
    : response qrdoc * world :=
  match verify_ownership user c w with
  | inl r => (r, w)
  | inr d =>
      (reply 200 true
         (match ne with
          | Some _ => "OTP sent to new email address"
          | None => "OTP sent to current email address"
          end) None,
       storeUpdateOTP c o (now + 10 * 60 * 1000) ne np w)
  end.

(** [POST /:code/verify-update-otp]. *)
Definition post_verify_update_otp (user : string) (c : string) (o : string)
    (upd : updateData) (now : Z) (w : world) : response qrdoc * world :=
  if decide (String.length o = 6%nat) then
    match verify_ownership user c w with
    | inl r => (r, w)
    | inr _ =>
        if verifyUpdateOTP c o now w then
          match updateQRCode c upd w with
          | (Err m, w') => (reply 500 false m None, w')
          | (Ok d, w') =>
              (reply 200 true "Contact information updated successfully" (Some d),
               clearUpdateOTP c w')
          end
        else (reply 400 false "Invalid or expired OTP" None, w)
    end
  else (reply 400 false "Validation failed" None, w).

(** [PATCH /:code/toggle-status]. *)
Definition patch_toggle_status (user : string) (c : string) (w : world)
    : response qrdoc * world :=
  match verify_ownership user c w with
  | inl r => (r, w)
  | inr qrCode =>
      let newStatus := if decide (status qrCode = active) then inactive else active in
      match toggleQRCodeStatus c newStatus w with
      | (Err m, w') => (reply 500 false m None, w')
      | (Ok d, w') =>
          (reply 200 true
             ("QR code " +:+
              (if decide (newStatus = active) then "activated" else "deactivated")
              +:+ " successfully")
             (Some d), w')
      end
  end.

(** [PUT /:code]. *)
Definition put_code (user : string) (c : string) (upd : updateData)
    (w : world) : response qrdoc * world :=
  match verify_ownership user c w with
  | inl r => (r, w)
  | inr _ =>
      match updateQRCode c upd w with
      | (Err m, w') => (reply 500 false m None, w')
      | (Ok d, w') => (reply 200 true "QR code updated successfully" (Some d), w')
      end
  end.

(* ===================================================================== *)
(** * 4. Concurrent public lookups on the event loop                      *)
(* ===================================================================== *)

(** Node runs one piece of JavaScript at a time, and a call of an [async]
    function runs without interruption from one [await] to the next.
    A lookup is therefore two atomic pieces:
    - the arrival: [getQRCodeByCodePublic] from its start to its [await],
      that is the test of the cache, the test of [requestQueue], and for
      the caller that finds neither, the start of [fetchQRCodeFromDatabase]
      (which sends the query) and [requestQueue.set];
    - the settlement of the query of a code: the rest of
      [fetchQRCodeFromDatabase], which settles the registered promise, then
      the continuations of the callers that await it, in the order in which
      they began to wait; the first of them is the caller that registered
      the promise, and its [finally] runs [requestQueue.delete]. *)
Inductive event :=
| Arrive (caller : nat) (c : string) (now : Z)
| Settle (c : string) (fail : option string) (t_ins t_sweep : Z).

(** The state of the process: the service state, the callers suspended on
    the promise of a code, and the results handed to the callers so far. *)
Record loop := {
  state : world;
  waiting : list (nat * string);
  replies : list (nat * result view)
}.

Definition step (l : loop) (e : event) : loop :=
  let w := state l in
  match e with
  | Arrive i c now =>
      match cache_get (qrCache w) c now with
      | Some v =>
          {| state := w; waiting := waiting l;
             replies := replies l ++ [(i, Ok v)] |}
      | None =>
          if decide (c ∈ requestQueue w)
          then {| state := w; waiting := waiting l ++ [(i, c)];
                  replies := replies l |}
          else {| state := set_requestQueue ({[c]} ∪ requestQueue w)
                             (fetch_begin c w);
                  waiting := waiting l ++ [(i, c)];
                  replies := replies l |}
      end
  | Settle c fail t_ins t_sweep =>
      if decide (c ∈ requestQueue w) then
        let q := match fail with
                 | Some m => Err m
                 | None => Ok (findOne (db w) c)
                 end in
        let '(r, w2) := fetch_settle c q t_ins t_sweep w in
        {| state := set_requestQueue (requestQueue w2 ∖ {[c]}) w2;
           waiting := filter (λ p, p.2 ≠ c) (waiting l);
           replies := replies l ++
             ((λ p, (p.1, wrap "Failed to get QR code: " r)) <$>
                filter (λ p, p.2 = c) (waiting l)) |}
      else l
  end.

(** A schedule is run from left to right. *)
Definition run (es : list event) (l : loop) : loop := foldl step l es.

(** [N] callers, one arrival each, for the same code. *)
Definition arrivals (c : string) (who : list (nat * Z)) : list event :=
  (λ p, Arrive p.1 c p.2) <$> who.

(** The states that the process can be in: every suspended caller waits
    for a promise that is registered. *)
Definition consistent (l : loop) : Prop :=
  Forall (λ p, p.2 ∈ requestQueue (state l)) (waiting l).

(** A run of scans on one document: each element is the [scanData] of a
    scan with the two clock readings of its [incrementScanCount]. *)
Definition scan_entry (s : scanData * (Z * Z)) : scan :=
  {| scannedAt := s.2.2; ipAddress := or_unknown (sd_ipAddress s.1);
     userAgent := or_unknown (sd_userAgent s.1);
     location := or_unknown (sd_location s.1) |}.

Definition scan_once (d : qrdoc) (s : scanData * (Z * Z)) : qrdoc :=
  incrementScanCount (sd_ipAddress s.1) (sd_userAgent s.1) (sd_location s.1)
    s.2.1 s.2.2 d.

Definition scan_many (ss : list (scanData * (Z * Z))) (d : qrdoc) : qrdoc :=
  foldl scan_once d ss.

(* ===================================================================== *)
(** * 5. Sample data                                                      *)
(* ===================================================================== *)

Definition sample_details : obj :=
  {[ "name" := JStr "Backpack"; "color" := JStr "red" ]}.

Definition sample_contact : obj :=
  {[ "name" := JStr "Ann"; "phone" := JStr "+27821234567";
     "email" := JStr "ann@example.com" ]}.

Definition sample_settings : obj :=
  {[ "instantAlerts" := JBool true; "locationSharing" := JBool true ]}.

(** A code as [createQRCode] leaves it, then activated by the user [u1]. *)
Definition sample_doc : qrdoc :=
  {| doc_id := "65f0c0ffee"; code := "1722986DCAA8"; type := item;
     owner := Some "u1"; details := sample_details; contact := sample_contact;
     settings := sample_settings; status := active; isActivated := true;
     activationDate := Some 1000; lastScanned := None; scanCount := 0;
     foundBy := None; qrImageUrl := None; scanHistory := [];
     updateOTP := None |}.

Definition sample_world : world :=
  {| db := {[ "1722986DCAA8" := sample_doc ]}; qrCache := ∅;
     requestQueue := ∅; queries := [] |}.

Definition no_scan_data : scanData :=
  {| sd_ipAddress := None; sd_userAgent := None; sd_location := None |}.

(** The sample document after fifty scans: its history is full. *)
Definition sample_full_doc : qrdoc :=
  scan_many (replicate 50 (no_scan_data, (1, 1))) sample_doc.

(** One more scan. *)
Definition one_more_scan : scanData * (Z * Z) := (no_scan_data, (2, 3)).

(** The sample code before its activation. *)
Definition sample_fresh_world : world :=
  {| db := {[ "1722986DCAA8" :=
               set_owner None (set_activationDate None
                 (set_isActivated false sample_doc)) ]};
     qrCache := ∅; requestQueue := ∅; queries := [] |}.

(** The sample code after a finder has reported it. *)
Definition sample_finder : finderDetails :=
  {| fd_name := Some "Bob"; fd_phone := Some "+27820000000"; fd_email := None;
     fd_location := Some "Park"; fd_notes := None |}.

Definition sample_found_world : world :=
  (reportFound "1722986DCAA8" sample_finder 2000 sample_world).2.

(** A patch that has [details], with a new [name] and nothing else. *)
Definition rename_patch : updateData :=
  {| u_details := Some {[ "name" := JStr "Suitcase" ]};
     u_contact := None; u_settings := None |}.

Definition no_activation : activationData :=
  {| a_details := None; a_contact := Some ∅; a_settings := None |}.

(** The sample world after the owner has asked for a contact update at
    time 5000 and the code 123456 was drawn. *)
Definition sample_otp_world : world :=
  (post_send_update_otp "u1" "1722986DCAA8" (Some "new@example.com") None
     "123456" 5000 sample_world).2.

(** The sample world after a public lookup at time 0: the code is cached. *)
Definition sample_cached_world : world :=
  (getQRCodeByCodePublic "1722986DCAA8" 0 0 0 sample_world).2.

(** The process at rest on the sample world, and three callers that
    look the sample code up at times 10, 11 and 12. *)
Definition sample_loop : loop :=
  {| state := sample_world; waiting := []; replies := [] |}.

Definition three_callers : list (nat * Z) := [(1%nat, 10); (2%nat, 11); (3%nat, 12)].

(* ===================================================================== *)
(** * 5a. The remaining handlers and the requests of a client             *)
(* ===================================================================== *)

(** [x || dflt] on a string that may be missing. *)
Definition or_default (x : option string) (dflt : string) : string :=
  match x with
  | Some s => if decide (s = "") then dflt else s
  | None => dflt
  end.

(** [POST /:code/scan]. [ip] is [req.ip || req.connection.remoteAddress],
    [ua] the [User-Agent] header and [loc] is [req.body.location]. The data
    of the response is read from the document scanned. *)
Definition post_scan (c : string) (ip ua loc : option string) (t1 t2 : Z)
    (w : world) : response qrdoc * world :=
  match handleScan c {| sd_ipAddress := ip; sd_userAgent := ua;
                        sd_location := Some (or_default loc "Unknown") |}
          t1 t2 w with
  | (Ok d, w') => (reply 200 true "QR code scanned successfully" (Some d), w')
  | (Err m, w') => (reply 400 false m None, w')
  end.

(** [POST /:code/track-scan]. *)
Definition post_track_scan (c : string) (ip ua loc : option string)
    (t1 t2 : Z) (w : world) : response (Z * option Z) * world :=
  match trackScan c {| sd_ipAddress := ip; sd_userAgent := ua;
                       sd_location := Some (or_default loc "unknown") |}
          t1 t2 w with
  | (Ok x, w') => (reply 200 true "Scan tracked successfully" (Some x), w')
  | (Err m, w') => (reply 500 false m None, w')
  end.

(** [POST /:code/found], for a body that has passed the validators. The
    handler hands [req.body] to [reportFound] as it is; [b] holds the
    string properties of the body, and [markAsFound] reads five of them. *)
Definition post_found (c : string) (b : gmap string string) (t : Z)
    (w : world) : response qrdoc * world :=
  match reportFound c {| fd_name := b !! "name"; fd_phone := b !! "phone";
                         fd_email := b !! "email";
                         fd_location := b !! "location";
                         fd_notes := b !! "notes" |} t w with
  | (Ok d, w') =>
      (reply 200 true "Item/Pet reported as found successfully" (Some d), w')
  | (Err m, w') => (reply 400 false m None, w')
  end.

(** [DELETE /:code]: [QRCodeModel.findOneAndDelete({ code })] after the
    ownership test. *)
Definition delete_code (user : string) (c : string) (w : world)
    : response qrdoc * world :=
  match verify_ownership user c w with
  | inl r => (r, w)
  | inr _ =>
      (reply 200 true "QR code deleted successfully" None,
       set_db (delete c (db w)) w)
  end.

(** The requests that the router of [src/routes/qr.js] serves on stored
    codes, each with the inputs of its handler. *)
Inductive request :=
| GetCode (c : string) (now t_ins t_sweep : Z)
| Activate (uid c : string) (act : activationData) (t : Z)
| Scan (c : string) (ip ua loc : option string) (t1 t2 : Z)
| TrackScan (c : string) (ip ua loc : option string) (t1 t2 : Z)
| Found (c : string) (b : gmap string string) (t : Z)
| Put (user c : string) (upd : updateData)
| Delete (user c : string)
| SendOtp (user c : string) (ne np : option string) (o : string) (now : Z)
| VerifyOtp (user c o : string) (upd : updateData) (now : Z)
| Toggle (user c : string).

(** The state after a request has been served. *)
Definition serve (w : world) (r : request) : world :=
  match r with
  | GetCode c now t_ins t_sweep => (get_code c now t_ins t_sweep w).2
  | Activate uid c act t => (post_activate uid c act t w).2
  | Scan c ip ua loc t1 t2 => (post_scan c ip ua loc t1 t2 w).2
  | TrackScan c ip ua loc t1 t2 => (post_track_scan c ip ua loc t1 t2 w).2
  | Found c b t => (post_found c b t w).2
  | Put user c upd => (put_code user c upd w).2
  | Delete user c => (delete_code user c w).2
  | SendOtp user c ne np o now => (post_send_update_otp user c ne np o now w).2
  | VerifyOtp user c o upd now => (post_verify_update_otp user c o upd now w).2
  | Toggle user c => (patch_toggle_status user c w).2
  end.

Definition serve_all (rs : list request) (w : world) : world := foldl serve w rs.

(** The code that a request is about. *)
Definition target (r : request) : string :=
  match r with
  | GetCode c _ _ _ | Activate _ c _ _ | Scan c _ _ _ _ _
  | TrackScan c _ _ _ _ _ | Found c _ _ | Put _ c _ | Delete _ c
  | SendOtp _ c _ _ _ _ | VerifyOtp _ c _ _ _ | Toggle _ c => c
  end.

(** The user of the token, for the requests that go through [auth]. *)
Definition requester (r : request) : option string :=
  match r with
  | Put user _ _ | Delete user _ | SendOtp user _ _ _ _ _
  | VerifyOtp user _ _ _ _ | Toggle user _ => Some user
  | _ => None
  end.

(** What the schema and the lifecycle promise of a stored document: the
    ledger is bounded, an activated code has an owner, a found code has
    its finder. *)
Definition doc_ok (d : qrdoc) : Prop :=
  (length (scanHistory d) ≤ 50)%nat
  ∧ (isActivated d = true → is_Some (owner d))
  ∧ (status d = found → is_Some (foundBy d)).

Definition store_ok (w : world) : Prop :=
  ∀ c d, db w !! c = Some d → doc_ok d.

(** How a stored document may differ from an earlier version of it. *)
Definition evolves (d d' : qrdoc) : Prop :=
  doc_id d' = doc_id d ∧ code d' = code d ∧ type d' = type d
  ∧ scanCount d ≤ scanCount d'
  ∧ (isActivated d = true → isActivated d' = true)
  ∧ (doc_ok d → doc_ok d').

(** The requests whose service function deletes the cache entry of the
    code after its write. *)
Definition evicts (r : request) : bool :=
  match r with
  | Activate _ _ _ _ | Scan _ _ _ _ _ _ | TrackScan _ _ _ _ _ _
  | Found _ _ _ => true
  | _ => false
  end.

(** How a request on the code [c] may change the collection: not at all,
    by a new version of the document of [c], or by its removal. *)
Definition db_moves (m m' : gmap string qrdoc) (c : string) : Prop :=
  m' = m
  ∨ (∃ d d', findOne m c = Some d ∧ evolves d d' ∧ m' = <[c := d']> m)
  ∨ (is_Some (findOne m c) ∧ m' = delete c m).

(** Repeated public lookups of one code; each element holds the three
    clock readings of a lookup. *)
Definition lookups (c : string) (ts : list (Z * Z * Z)) (w : world) : world :=
  foldl (λ w t, (getQRCodeByCodePublic c t.1.1 t.1.2 t.2 w).2) w ts.

(** Repeated [trackScan] of one code. *)
Definition track_all (c : string) (ss : list (scanData * (Z * Z))) (w : world)
    : world :=
  foldl (λ w s, (trackScan c s.1 s.2.1 s.2.2 w).2) w ss.

(** Every cache entry is filed under the key of the code that its
    snapshot carries. *)
Definition cache_ok (w : world) : Prop :=
  ∀ c e, qrCache w !! cacheKey c = Some e → v_code (data e) = c.


Definition settles (c : string) (e : event) : bool :=
  match e with
  | Arrive _ _ _ => false
  | Settle c' _ _ _ => bool_decide (c' = c)
  end.

Definition count {A} (f : A → bool) (l : list A) : nat :=
  length (filter (λ x, f x = true) l).

Definition sent (c : string) (w : world) : nat :=
  count (λ x, bool_decide (x = c)) (queries w).

(** ** [generateUniqueCode] *)

(** [s.replace(/-/g, '')]. *)
Fixpoint remove_dashes (s : string) : string :=
  match s with
  | EmptyString => EmptyString
  | String a s' =>
      if decide (a = "-"%char) then remove_dashes s'
      else String a (remove_dashes s')
  end.

(** [toUpperCase] on a character of an ASCII string. *)
Definition upper (a : ascii) : ascii :=
  let n := nat_of_ascii a in
  if decide (97 ≤ n ≤ 122)%nat then ascii_of_nat (n - 32) else a.

Fixpoint toUpperCase (s : string) : string :=
  match s with
  | EmptyString => EmptyString
  | String a s' => String (upper a) (toUpperCase s')
  end.

(** [generateUniqueCode], on the string that [uuidv4()] returned. *)
Definition generateUniqueCode (uuid : string) : string :=
  toUpperCase (String.substring 0 12 (remove_dashes uuid)).

(** The characters of a string all satisfy a test. *)
Fixpoint all_chars (f : ascii → bool) (s : string) : bool :=
  match s with
  | EmptyString => true
  | String a s' => f a && all_chars f s'
  end.

(** The characters of the text form of a UUID: lower-case hexadecimal
    digits and the dash. *)
Definition uuid_char (a : ascii) : bool :=
  bool_decide (a ∈ String.list_ascii_of_string "0123456789abcdef-").

Definition code_char (a : ascii) : bool :=
  bool_decide (a ∈ String.list_ascii_of_string "0123456789ABCDEF").

(** ** More sample data *)

Definition other_doc : qrdoc :=
  {| doc_id := "65f0c0ffef"; code := "AAAABBBBCCCC"; type := pet;
     owner := Some "u2"; details := {[ "name" := JStr "Rex" ]};
     contact := sample_contact; settings := sample_settings;
     status := inactive; isActivated := true;
     activationDate := Some 900; lastScanned := None; scanCount := 4;
     foundBy := None; qrImageUrl := None; scanHistory := [];
     updateOTP := None |}.

Definition sample_two_world : world :=
  {| db := {[ "1722986DCAA8" := sample_doc; "AAAABBBBCCCC" := other_doc ]};
     qrCache := ∅; requestQueue := ∅; queries := [] |}.

(** What the validators of [POST /:code/found] ask of a body. *)
Definition validated_found_body : gmap string string :=
  {[ "finderName" := "Bob"; "finderPhone" := "+27820000000";
     "foundLocation" := "Park" ]}.

Definition sample_requests : list request :=
  [ GetCode "1722986DCAA8" 0 0 0;
    Scan "1722986DCAA8" (Some "10.0.0.1") None None 10 11;
    TrackScan "1722986DCAA8" None None None 12 13;
    Toggle "u1" "1722986DCAA8";
    Found "1722986DCAA8" validated_found_body 20;
    SendOtp "u1" "1722986DCAA8" None (Some "+27829999999") "654321" 30;
    VerifyOtp "u1" "1722986DCAA8" "654321" rename_patch 40;
    Put "u2" "1722986DCAA8" rename_patch;
    Delete "u2" "AAAABBBBCCCC" ].

Definition sample_uuid : string := "1722986d-caa8-4f3e-9c1b-0a1b2c3d4e5f".

(* ===================================================================== *)
(** * 6. The scan ledger                                                  *)
(* ===================================================================== *)

Section Ledger.
Context {A : Type}.
Implicit Types a b : list A.

Lemma slice_last_length n a : length (slice_last n a) = (n `min` length a)%nat.
Proof. unfold slice_last. rewrite length_drop. lia. Qed.

Lemma slice_last_short n a : (length a ≤ n)%nat → slice_last n a = a.
Proof.
  intros H. unfold slice_last.
  replace (length a - n)%nat with 0%nat by lia. done.
Qed.

(** Trimming early does not change what a later trim keeps. *)
Lemma slice_last_app n a b :
  slice_last n (slice_last n a ++ b) = slice_last n (a ++ b).
Proof.
  unfold slice_last. set (k := (length a - n)%nat).
  replace (drop (length (a ++ b) - n) (a ++ b))
    with (drop (length (a ++ b) - n) (take k a ++ (drop k a ++ b)))
    by (by rewrite (assoc_L (++)), take_drop).
  assert (Hk : length (take k a) = k) by (rewrite length_take; lia).
  rewrite (drop_app_ge (take k a)) by (rewrite Hk, length_app; lia).
  f_equal. rewrite Hk, !length_app, length_drop. lia.
Qed.

Lemma slice_last_snoc n a x :
  (0 < n)%nat → last (slice_last n (a ++ [x])) = Some x.
Proof.
  intros Hn. unfold slice_last. rewrite length_app. simpl.
  rewrite drop_app_le by lia. apply last_snoc.
Qed.
End Ledger.

Lemma incrementScanCount_history ip ua loc t1 t2 d :
  scanHistory (incrementScanCount ip ua loc t1 t2 d) =
  slice_last 50 (scanHistory d ++
    [ {| scannedAt := t2; ipAddress := or_unknown ip;
         userAgent := or_unknown ua; location := or_unknown loc |} ]).
Proof.
  unfold incrementScanCount. cbn [scanHistory set_scanHistory set_lastScanned set_scanCount].
  case_decide as H; cbn [scanHistory set_scanHistory]; [done|].
  symmetry. apply slice_last_short. lia.
Qed.

Lemma scan_once_history d s :
  scanHistory (scan_once d s) = slice_last 50 (scanHistory d ++ [scan_entry s]).
Proof. apply incrementScanCount_history. Qed.

Lemma scan_many_snoc ss s d :
  scan_many (ss ++ [s]) d = scan_once (scan_many ss d) s.
Proof. unfold scan_many. by rewrite foldl_app. Qed.

Lemma scan_many_history ss d :
  ss ≠ [] ∨ (length (scanHistory d) ≤ 50)%nat →
  scanHistory (scan_many ss d) =
  slice_last 50 (scanHistory d ++ (scan_entry <$> ss)).
Proof.
  induction ss as [|s ss IH] using rev_ind; intros H.
  - destruct H as [H|H]; [done|]. simpl. rewrite app_nil_r.
    symmetry. by apply slice_last_short.
  - rewrite scan_many_snoc, scan_once_history, fmap_app, app_assoc. simpl.
    destruct ss as [|s0 ss'].
    + simpl. by rewrite app_nil_r.
    + rewrite IH by (left; done). apply slice_last_app.
Qed.

(** C2. Whatever the document and however many scans it takes, the history
    stays within 50 entries (a document that starts within the bound, or
    any document once it has been scanned): the history after the scans is
    the last 50 of the old history followed by one entry per scan, in the
    order of the scans. So each scan adds its entry as the newest, a scan
    on a history below the bound drops nothing, and a scan on a full
    history drops exactly the oldest entry. *)
Theorem scanHistory_bounded_fifo (d : qrdoc) (ss : list (scanData * (Z * Z))) :
  ss ≠ [] ∨ (length (scanHistory d) ≤ 50)%nat →
  let h := scanHistory (scan_many ss d) in
  (length h ≤ 50)%nat
  ∧ h = slice_last 50 (scanHistory d ++ (scan_entry <$> ss))
  ∧ ∀ s, let h' := scanHistory (scan_once (scan_many ss d) s) in
      (length h' ≤ 50)%nat
      ∧ last h' = Some (scan_entry s)
      ∧ ((length h < 50)%nat → h' = h ++ [scan_entry s])
      ∧ (length h = 50%nat → h' = drop 1 h ++ [scan_entry s]).
Proof.
  intros H h.
  assert (Hh : h = slice_last 50 (scanHistory d ++ (scan_entry <$> ss)))
    by (by apply scan_many_history).
  assert (Hlen : (length h ≤ 50)%nat) by (rewrite Hh, slice_last_length; lia).
  split; [done|]. split; [done|].
  intros s h'. subst h'. rewrite scan_once_history. fold h.
  split; [rewrite slice_last_length; lia|].
  split; [apply slice_last_snoc; lia|].
  split.
  - intros Hlt. apply slice_last_short. rewrite length_app. simpl. lia.
  - intros Heq. unfold slice_last. rewrite length_app, Heq. simpl.
    by rewrite drop_app_le by lia.
Qed.

Lemma scanHistory_bounded_fifo_witness :
  length (scanHistory sample_full_doc) = 50%nat
  ∧ (length (scanHistory (scan_once sample_full_doc one_more_scan)) ≤ 50)%nat
  ∧ last (scanHistory (scan_once sample_full_doc one_more_scan))
    = Some (scan_entry one_more_scan)
  ∧ scanHistory (scan_once sample_full_doc one_more_scan)
    = drop 1 (scanHistory sample_full_doc) ++ [scan_entry one_more_scan].
Proof.
  assert (H0 : (length (scanHistory sample_doc) ≤ 50)%nat) by (simpl; lia).
  destruct (scanHistory_bounded_fifo sample_doc
              (replicate 50 (no_scan_data, (1, 1))) (or_intror H0))
    as (_ & _ & Hs).
  destruct (Hs one_more_scan) as (H1 & H2 & _ & H4).
  split; [reflexivity|]. split; [exact H1|]. split; [exact H2|].
  apply H4. reflexivity.
Defined.

(* ===================================================================== *)
(** * 7. The store                                                        *)
(* ===================================================================== *)

Lemma findOne_code m c d : findOne m c = Some d → code d = c.
Proof.
  unfold findOne. destruct (m !! c) as [d0|]; [|done].
  case_decide; congruence.
Qed.

Lemma findOne_save c d w :
  code d = c → findOne (db (save c d w)) c = Some d.
Proof.
  intros H. unfold findOne, save. cbn [db set_db].
  rewrite lookup_insert_eq. by rewrite decide_True.
Qed.

Lemma findOne_save_ne c c' d w :
  c ≠ c' → findOne (db (save c d w)) c' = findOne (db w) c'.
Proof.
  intros H. unfold findOne, save. cbn [db set_db].
  by rewrite lookup_insert_ne.
Qed.

Lemma cacheKey_inj c c' : cacheKey c = cacheKey c' → c = c'.
Proof. unfold cacheKey. intros H. by simplify_eq/=. Qed.

(* ===================================================================== *)
(** * 8. Scans of a code that is not activated                            *)
(* ===================================================================== *)

(** C4. A scan of a document with [isActivated = false] fails with the
    not-activated error, in [handleScan] and in [trackScan] alike, and the
    whole state is what it was: the document (its [scanCount],
    [lastScanned] and [scanHistory] among the rest), the other documents
    and the cache. *)
Theorem scan_unactivated_no_effect (c : string) (sd : scanData) (t1 t2 : Z)
    (w : world) (d : qrdoc) :
  findOne (db w) c = Some d →
  isActivated d = false →
  handleScan c sd t1 t2 w
    = (Err "Failed to handle scan: QR code is not activated yet", w)
  ∧ trackScan c sd t1 t2 w
    = (Err "Failed to track scan: QR code is not activated yet", w).
Proof.
  intros Hd Hact. unfold handleScan, trackScan. by rewrite Hd, Hact.
Qed.

Lemma scan_unactivated_no_effect_witness :
  handleScan "1722986DCAA8" no_scan_data 5 6 sample_fresh_world
    = (Err "Failed to handle scan: QR code is not activated yet", sample_fresh_world)
  ∧ trackScan "1722986DCAA8" no_scan_data 5 6 sample_fresh_world
    = (Err "Failed to track scan: QR code is not activated yet", sample_fresh_world).
Proof.
  apply (scan_unactivated_no_effect "1722986DCAA8" no_scan_data 5 6
           sample_fresh_world
           (set_owner None (set_activationDate None
              (set_isActivated false sample_doc)))); reflexivity.
Defined.

(* ===================================================================== *)
(** * 9. Activation of a code that is already activated                   *)
(* ===================================================================== *)

(** The service function on its own refuses every second activation. *)
Lemma activateQRCode_activated c act uid t w d :
  findOne (db w) c = Some d →
  isActivated d = true →
  activateQRCode c act uid t w
    = (Err "Failed to activate QR code: QR code is already activated", w).
Proof. intros Hd Hact. unfold activateQRCode. by rewrite Hd, Hact. Qed.

(** C3. On a code that is already activated, the activation request of a
    user who is not the owner is refused as activated by another user, and
    the request of the owner succeeds with the stored document as it is; in
    both cases the state, and with it [activationDate] and every other field
    of the document, is unchanged. *)
Theorem activate_already_activated (uid c : string) (act : activationData)
    (t : Z) (w : world) (d : qrdoc) :
  findOne (db w) c = Some d →
  isActivated d = true →
  (owner d ≠ Some uid →
     post_activate uid c act t w
     = (reply 400 false
          "This QR code has already been activated by another user" None, w))
  ∧ (owner d = Some uid →
     post_activate uid c act t w
     = (reply 200 true "QR code is already activated by you" (Some d), w)).
Proof.
  intros Hd Hact. unfold post_activate, getQRCodeByCodeForOwnership.
  rewrite Hd, Hact. split; intros Ho.
  - destruct (owner d) as [o|]; [|done].
    case_decide; [congruence|done].
  - rewrite Ho. by rewrite decide_True.
Qed.

Lemma activate_already_activated_witness :
  post_activate "u2" "1722986DCAA8" no_activation 7000 sample_world
    = (reply 400 false
         "This QR code has already been activated by another user" None,
       sample_world)
  ∧ post_activate "u1" "1722986DCAA8" no_activation 7000 sample_world
    = (reply 200 true "QR code is already activated by you" (Some sample_doc),
       sample_world).
Proof.
  split.
  - apply (activate_already_activated "u2" "1722986DCAA8" no_activation 7000
             sample_world sample_doc); [reflexivity | reflexivity | discriminate].
  - apply (activate_already_activated "u1" "1722986DCAA8" no_activation 7000
             sample_world sample_doc); reflexivity.
Defined.

(* ===================================================================== *)
(** * 10. Toggling the status                                             *)
(* ===================================================================== *)

Lemma verify_ownership_owner {A} user c w d :
  findOne (db w) c = Some d →
  owner d = Some user →
  verify_ownership (A := A) user c w = inr d.
Proof.
  intros Hd Ho. unfold verify_ownership, getQRCodeByCodeForOwnership.
  rewrite Hd, Ho. by rewrite decide_True.
Qed.

(** A found code that its owner toggles becomes active. *)
Lemma toggle_changes_found :
  status <$> findOne (db sample_found_world) "1722986DCAA8" = Some found
  ∧ owner <$> findOne (db sample_found_world) "1722986DCAA8" = Some (Some "u1")
  ∧ http (patch_toggle_status "u1" "1722986DCAA8" sample_found_world).1 = 200
  ∧ status <$> findOne
        (db (patch_toggle_status "u1" "1722986DCAA8" sample_found_world).2)
        "1722986DCAA8"
    = Some active.
Proof. repeat split; reflexivity. Qed.

(** C8, as the code has it. The toggle of the owner stores [inactive] when
    the status is [active] and [active] in every other case, so [inactive],
    [found] and [suspended] all become [active]; the new status is always
    one of the two, and no other field or document changes. For a code that
    is not stored the request fails with the not-found error and changes
    nothing, and the request of a user who is not the owner is denied and
    changes nothing. *)
Theorem toggle_status_effect (user c : string) (w : world) :
  (findOne (db w) c = None →
     patch_toggle_status user c w
     = (reply 500 false "Failed to get QR code: QR code not found" None, w))
  ∧ (∀ d, findOne (db w) c = Some d → owner d = Some user →
       let s' := match status d with
                 | active => inactive
                 | inactive | found | suspended => active
                 end in
       http (patch_toggle_status user c w).1 = 200
       ∧ body (patch_toggle_status user c w).1 = Some (set_status s' d)
       ∧ (patch_toggle_status user c w).2 = save c (set_status s' d) w
       ∧ findOne (db (patch_toggle_status user c w).2) c = Some (set_status s' d)
       ∧ (s' = active ∨ s' = inactive)
       ∧ ∀ c', c' ≠ c →
           findOne (db (patch_toggle_status user c w).2) c' = findOne (db w) c')
  ∧ (∀ d o, findOne (db w) c = Some d → owner d = Some o → o ≠ user →
       patch_toggle_status user c w = (reply 403 false "Access denied" None, w)).
Proof.
  split; [|split].
  - intros Hd.
    unfold patch_toggle_status, verify_ownership, getQRCodeByCodeForOwnership.
    by rewrite Hd.
  - intros d Hd Ho s'. unfold patch_toggle_status.
    rewrite (verify_ownership_owner user c w d Hd Ho).
    unfold toggleQRCodeStatus. rewrite Hd.
    assert (Hs : (if decide (status d = active) then inactive else active) = s')
      by (subst s'; destruct (status d); done).
    rewrite Hs. cbn [fst snd http body reply].
    split; [done|]. split; [done|]. split; [done|].
    split; [apply findOne_save; apply (findOne_code _ _ _ Hd)|].
    split; [subst s'; destruct (status d); auto|].
    intros c' Hne. by apply findOne_save_ne.
  - intros d o Hd Ho Hne.
    unfold patch_toggle_status, verify_ownership, getQRCodeByCodeForOwnership.
    by rewrite Hd, Ho, decide_False.
Qed.

Lemma toggle_status_effect_witness :
  http (patch_toggle_status "u1" "1722986DCAA8" sample_world).1 = 200
  ∧ findOne (db (patch_toggle_status "u1" "1722986DCAA8" sample_world).2)
      "1722986DCAA8"
    = Some (set_status inactive sample_doc)
  ∧ patch_toggle_status "u1" "0000" sample_world
    = (reply 500 false "Failed to get QR code: QR code not found" None,
       sample_world)
  ∧ patch_toggle_status "u2" "1722986DCAA8" sample_world
    = (reply 403 false "Access denied" None, sample_world).
Proof.
  destruct (toggle_status_effect "u1" "1722986DCAA8" sample_world)
    as (_ & Hown & _).
  destruct (Hown sample_doc eq_refl eq_refl) as (H1 & _ & _ & H4 & _).
  destruct (toggle_status_effect "u1" "0000" sample_world) as (Habs & _).
  destruct (toggle_status_effect "u2" "1722986DCAA8" sample_world)
    as (_ & _ & Hden).
  split; [exact H1|]. split; [exact H4|].
  split; [exact (Habs eq_refl)|].
  apply (Hden sample_doc "u1"); [reflexivity | reflexivity | discriminate].
Defined.

(* ===================================================================== *)
(** * 11. Updating the details                                            *)
(* ===================================================================== *)

(** A patch whose [details] has only a new [name] drops the [color] that
    the document had: the subdocument is replaced, not merged. *)
Lemma update_drops_unlisted_field :
  (details <$> findOne (db sample_world) "1722986DCAA8")
    = Some {[ "name" := JStr "Backpack"; "color" := JStr "red" ]}
  ∧ u_details rename_patch = Some {[ "name" := JStr "Suitcase" ]}
  ∧ (updateQRCode "1722986DCAA8" rename_patch sample_world).1
    = Ok (set_details {[ "name" := JStr "Suitcase" ]} sample_doc)
  ∧ (details <$> findOne
        (db (updateQRCode "1722986DCAA8" rename_patch sample_world).2)
        "1722986DCAA8")
    = Some {[ "name" := JStr "Suitcase" ]}
  ∧ ((details <$> findOne
        (db (updateQRCode "1722986DCAA8" rename_patch sample_world).2)
        "1722986DCAA8") ≫= (.!! "color"))
    = None.
Proof. repeat split; reflexivity. Qed.

(** C7, as the code has it. Of [details], [contact] and [settings], each
    one that the patch has replaces the stored subdocument whole, and each
    one that the patch does not have keeps its stored value; every other
    field of the document is unchanged (with its three old subdocuments put
    back, the new document is the old one), and so is every other
    document. *)
Theorem update_sets_present_subdocuments (c : string) (upd : updateData)
    (w : world) (d : qrdoc) :
  findOne (db w) c = Some d →
  ∃ d',
    updateQRCode c upd w = (Ok d', save c d' w)
    ∧ findOne (db (save c d' w)) c = Some d'
    ∧ details d' = default (details d) (u_details upd)
    ∧ contact d' = default (contact d) (u_contact upd)
    ∧ settings d' = default (settings d) (u_settings upd)
    ∧ set_settings (settings d) (set_contact (contact d)
        (set_details (details d) d')) = d
    ∧ ∀ c', c' ≠ c → findOne (db (save c d' w)) c' = findOne (db w) c'.
Proof.
  intros Hd. unfold updateQRCode. rewrite Hd. eexists. split; [done|].
  split.
  { apply findOne_save. apply findOne_code in Hd.
    by destruct upd as [[?|] [?|] [?|]]. }
  destruct d, upd as [[?|] [?|] [?|]]; cbn.
  all: repeat split; try done.
  all: intros c' Hne; by apply findOne_save_ne.
Qed.

Lemma update_sets_present_subdocuments_witness :
  ∃ d',
    updateQRCode "1722986DCAA8" rename_patch sample_world
      = (Ok d', save "1722986DCAA8" d' sample_world)
    ∧ details d' = {[ "name" := JStr "Suitcase" ]}
    ∧ contact d' = sample_contact
    ∧ settings d' = sample_settings.
Proof.
  destruct (update_sets_present_subdocuments "1722986DCAA8" rename_patch
              sample_world sample_doc eq_refl)
    as (d' & H1 & _ & H3 & H4 & H5 & _).
  exists d'. split; [exact H1|]. split; [exact H3|]. split; [exact H4|exact H5].
Defined.

(* ===================================================================== *)
(** * 12. The one-time code of a contact update                           *)
(* ===================================================================== *)

Lemma updateQRCode_keeps c upd w d :
  findOne (db w) c = Some d →
  ∃ d', updateQRCode c upd w = (Ok d', save c d' w)
        ∧ code d' = c ∧ owner d' = owner d ∧ updateOTP d' = updateOTP d.
Proof.
  intros Hd. unfold updateQRCode. rewrite Hd. eexists. split; [done|].
  apply findOne_code in Hd.
  by destruct upd as [[?|] [?|] [?|]].
Qed.

(** After [clearUpdateOTP] no string verifies, at any time. *)
Lemma verifyUpdateOTP_cleared c o now w :
  verifyUpdateOTP c o now (clearUpdateOTP c w) = false.
Proof.
  unfold verifyUpdateOTP, clearUpdateOTP.
  destruct (findOne (db w) c) as [d|] eqn:Hd.
  - rewrite findOne_save by (apply (findOne_code _ _ _ Hd)).
    cbn. by destruct (updateOTP d).
  - by rewrite Hd.
Qed.

(** When [verifyUpdateOTP] accepts: the subdocument is there, its code is
    the submitted string, and its expiry is later than now. *)
Lemma verifyUpdateOTP_true c o now w :
  verifyUpdateOTP c o now w = true ↔
  ∃ d u e, findOne (db w) c = Some d ∧ updateOTP d = Some u
           ∧ otp_code u = Some o ∧ expires u = Some e ∧ now < e.
Proof.
  unfold verifyUpdateOTP, before. split.
  - destruct (findOne (db w) c) as [d|]; [|done].
    destruct (updateOTP d) as [u|] eqn:Hu; [|done].
    destruct (bool_decide (otp_code u = Some o)) eqn:Hc; [|done].
    apply bool_decide_eq_true_1 in Hc.
    destruct (expires u) as [e|] eqn:He; [|done].
    cbn. destruct (bool_decide (now < e)) eqn:Hlt; [|done].
    apply bool_decide_eq_true_1 in Hlt. intros _. by exists d, u, e.
  - intros (d & u & e & -> & -> & Hc & -> & Hlt).
    by rewrite !bool_decide_eq_true_2.
Qed.

(** What a successful verification request has done. *)
Lemma post_verify_update_otp_success user c o upd now w :
  http (post_verify_update_otp user c o upd now w).1 = 200 →
  ∃ d d',
    findOne (db w) c = Some d ∧ owner d = Some user
    ∧ String.length o = 6%nat
    ∧ verifyUpdateOTP c o now w = true
    ∧ updateQRCode c upd w = (Ok d', save c d' w)
    ∧ code d' = c ∧ owner d' = Some user
    ∧ (post_verify_update_otp user c o upd now w).2
      = clearUpdateOTP c (save c d' w).
Proof.
  unfold post_verify_update_otp.
  case_decide as Hlen; [|done].
  unfold verify_ownership, getQRCodeByCodeForOwnership.
  destruct (findOne (db w) c) as [d|] eqn:Hd; [|done].
  destruct (owner d) as [ow|] eqn:Ho; [|done].
  case_decide as Hu; [subst ow|done].
  destruct (verifyUpdateOTP c o now w) eqn:Hv; [|done].
  destruct (updateQRCode_keeps c upd w d Hd) as (d' & Hupd & Hc & Ho' & _).
  rewrite Hupd. cbn [fst snd]. intros _.
  exists d, d'. repeat split; try done. congruence.
Qed.

(** C6. When a verification request has succeeded, the four paths of
    [updateOTP] are unset in the stored document, and the same one-time
    code is refused from then on as invalid or expired, whatever the patch
    and the time of the repeated request; the repeated request changes
    nothing. *)
Theorem otp_single_use (user c o : string) (upd : updateData) (now : Z)
    (w : world) :
  http (post_verify_update_otp user c o upd now w).1 = 200 →
  (∃ d', findOne (db (post_verify_update_otp user c o upd now w).2) c = Some d'
         ∧ updateOTP d' = Some {| otp_code := None; expires := None;
                                  newEmail := None; newPhone := None |})
  ∧ ∀ (upd' : updateData) (now' : Z),
      post_verify_update_otp user c o upd' now'
        (post_verify_update_otp user c o upd now w).2
      = (reply 400 false "Invalid or expired OTP" None,
         (post_verify_update_otp user c o upd now w).2).
Proof.
  intros Hok.
  destruct (post_verify_update_otp_success _ _ _ _ _ _ Hok)
    as (d & d' & Hd & Ho & Hlen & Hv & Hupd & Hc & Ho' & ->).
  destruct (updateQRCode_keeps c upd w d Hd) as (d'' & Hupd' & _ & _ & Hotp).
  rewrite Hupd in Hupd'. injection Hupd' as <-.
  apply verifyUpdateOTP_true in Hv as (d0 & u & e & Hd0 & Hu & _).
  rewrite Hd in Hd0. injection Hd0 as <-.
  assert (∃ d2, findOne (db (clearUpdateOTP c (save c d' w))) c = Some d2
                ∧ owner d2 = Some user
                ∧ updateOTP d2 = Some {| otp_code := None; expires := None;
                                         newEmail := None; newPhone := None |})
    as (d2 & Hd2 & Ho2 & Hu2).
  { unfold clearUpdateOTP. rewrite (findOne_save c d' w Hc).
    eexists. split; [by apply findOne_save|]. split; [by cbn|].
    cbn. by rewrite Hotp, Hu. }
  split; [by exists d2|].
  intros upd' now'.
  unfold post_verify_update_otp. rewrite decide_True by done.
  rewrite (verify_ownership_owner user c _ d2 Hd2 Ho2).
  by rewrite verifyUpdateOTP_cleared.
Qed.

Lemma otp_single_use_witness :
  http (post_verify_update_otp "u1" "1722986DCAA8" "123456" rename_patch 6000
          sample_otp_world).1 = 200
  ∧ post_verify_update_otp "u1" "1722986DCAA8" "123456" rename_patch 6001
      (post_verify_update_otp "u1" "1722986DCAA8" "123456" rename_patch 6000
         sample_otp_world).2
    = (reply 400 false "Invalid or expired OTP" None,
       (post_verify_update_otp "u1" "1722986DCAA8" "123456" rename_patch 6000
          sample_otp_world).2).
Proof.
  split; [reflexivity|].
  apply (otp_single_use "u1" "1722986DCAA8" "123456" rename_patch 6000
           sample_otp_world).
  reflexivity.
Defined.


(* ===================================================================== *)
(** * 13. The cache of the public lookup                                  *)
(* ===================================================================== *)

Lemma cache_get_Some m c now v :
  cache_get m c now = Some v ↔
  ∃ e, m !! cacheKey c = Some e ∧ data e = v ∧ now - timestamp e < CACHE_TTL.
Proof.
  unfold cache_get. split.
  - destruct (m !! cacheKey c) as [e|]; [|done].
    case_decide; [|done]. intros [= <-]. by exists e.
  - intros (e & -> & <- & Hlt). by rewrite decide_True.
Qed.

Lemma cache_get_expired m c now e :
  m !! cacheKey c = Some e →
  CACHE_TTL ≤ now - timestamp e →
  cache_get m c now = None.
Proof. intros He Hexp. unfold cache_get. rewrite He, decide_False; [done|lia]. Qed.

(** The sweep keeps an entry whose age is at most the TTL. *)
Lemma cleanupCache_lookup now m k e :
  m !! k = Some e →
  now - timestamp e ≤ CACHE_TTL →
  cleanupCache now m !! k = Some e.
Proof.
  intros He Hage. unfold cleanupCache.
  apply map_lookup_filter_Some. split; [done|]. simpl. lia.
Qed.

Lemma fetch_settle_queries c q t_ins t_sweep w :
  queries (fetch_settle c q t_ins t_sweep w).2 = queries w.
Proof. unfold fetch_settle. by destruct q as [[d|]|]. Qed.

Lemma fetch_settle_requestQueue c q t_ins t_sweep w :
  requestQueue (fetch_settle c q t_ins t_sweep w).2 = requestQueue w.
Proof. unfold fetch_settle. by destruct q as [[d|]|]. Qed.

Lemma fetch_settle_db c q t_ins t_sweep w :
  db (fetch_settle c q t_ins t_sweep w).2 = db w.
Proof. unfold fetch_settle. by destruct q as [[d|]|]. Qed.

(** Registering a code and removing it again gives the registry back. *)
Lemma requestQueue_restored (c : string) (q : gset string) :
  c ∉ q → ({[c]} ∪ q) ∖ {[c]} = q.
Proof.
  intros Hq. apply set_eq. intros x.
  rewrite elem_of_difference, elem_of_union, !elem_of_singleton. split.
  - by intros [[?|?] ?].
  - intros Hx. split; [by right|]. by intros ->.
Qed.

(** The lookup on a miss with no fetch in flight, spelled out. *)
Lemma getQRCodeByCodePublic_miss c now t_ins t_sweep w :
  cache_get (qrCache w) c now = None →
  c ∉ requestQueue w →
  let r := getQRCodeByCodePublic c now t_ins t_sweep w in
  queries r.2 = queries w ++ [c]
  ∧ db r.2 = db w
  ∧ requestQueue r.2 = requestQueue w
  ∧ match findOne (db w) c with
    | Some d =>
        r.1 = Ok (project d)
        ∧ qrCache r.2
          = cleanupCache t_sweep
              (<[cacheKey c := {| data := project d; timestamp := t_ins |}]>
                 (qrCache w))
    | None =>
        r.1 = Err "Failed to get QR code: QR code not found"
        ∧ qrCache r.2 = qrCache w
    end.
Proof.
  intros Hmiss Hq r. subst r. unfold getQRCodeByCodePublic.
  rewrite Hmiss, decide_False by done.
  cbn [db set_requestQueue fetch_begin set_queries].
  pose proof (requestQueue_restored c (requestQueue w) Hq) as Hrq.
  destruct (findOne (db w) c) as [d|]; cbn.
  all: by repeat split.
Qed.

(** C5. Take a code with a cache entry and no fetch in flight. While the
    age of the entry is below the TTL the lookup returns it and touches
    nothing. Once the age has reached the TTL the lookup does not return
    the entry: it sends one query to the collection and answers with what
    the collection holds; when the document is there, the cache then holds
    its projection with the timestamp read after the fetch (the sweep that
    follows keeps it, the two clock readings being at most a TTL apart),
    and when it is not, the lookup fails as not found. And a lookup that
    answers without a query has returned an entry younger than the TTL. *)
Theorem expired_entry_refetched (c : string) (now t_ins t_sweep : Z)
    (w : world) :
  c ∉ requestQueue w →
  t_sweep - t_ins ≤ CACHE_TTL →
  (∀ e, qrCache w !! cacheKey c = Some e →
     (now - timestamp e < CACHE_TTL →
        getQRCodeByCodePublic c now t_ins t_sweep w = (Ok (data e), w))
     ∧ (CACHE_TTL ≤ now - timestamp e →
        let r := getQRCodeByCodePublic c now t_ins t_sweep w in
        queries r.2 = queries w ++ [c]
        ∧ match findOne (db w) c with
          | Some d =>
              r.1 = Ok (project d)
              ∧ qrCache r.2 !! cacheKey c
                = Some {| data := project d; timestamp := t_ins |}
          | None =>
              r.1 = Err "Failed to get QR code: QR code not found"
          end))
  ∧ (∀ v, (getQRCodeByCodePublic c now t_ins t_sweep w).1 = Ok v →
       queries (getQRCodeByCodePublic c now t_ins t_sweep w).2 = queries w →
       ∃ e, qrCache w !! cacheKey c = Some e ∧ data e = v
            ∧ now - timestamp e < CACHE_TTL).
Proof.
  intros Hq Hsweep. split.
  - intros e He. split.
    + intros Hfresh. unfold getQRCodeByCodePublic.
      assert (cache_get (qrCache w) c now = Some (data e)) as ->; [|done].
      apply cache_get_Some. by exists e.
    + intros Hexp r.
      destruct (getQRCodeByCodePublic_miss c now t_ins t_sweep w
                  (cache_get_expired _ _ _ _ He Hexp) Hq)
        as (Hqs & _ & _ & Hres).
      fold r in Hqs, Hres. split; [done|].
      destruct (findOne (db w) c) as [d|]; [|by destruct Hres].
      destruct Hres as [Hr Hc]. split; [done|]. rewrite Hc.
      apply cleanupCache_lookup; [apply lookup_insert_eq|]. simpl. lia.
  - intros v Hv Hqs.
    destruct (cache_get (qrCache w) c now) as [v'|] eqn:Hget.
    + unfold getQRCodeByCodePublic in Hv. rewrite Hget in Hv.
      injection Hv as ->. by apply cache_get_Some.
    + destruct (getQRCodeByCodePublic_miss c now t_ins t_sweep w Hget Hq)
        as (Hqs' & _).
      rewrite Hqs in Hqs'. apply (f_equal length) in Hqs'.
      rewrite length_app in Hqs'. simpl in Hqs'. lia.
Qed.

Lemma expired_entry_refetched_witness :
  getQRCodeByCodePublic "1722986DCAA8" 599999 599999 599999 sample_cached_world
    = (Ok (project sample_doc), sample_cached_world)
  ∧ queries (getQRCodeByCodePublic "1722986DCAA8" 600000 600001 600002
               sample_cached_world).2
    = ["1722986DCAA8"; "1722986DCAA8"]
  ∧ qrCache (getQRCodeByCodePublic "1722986DCAA8" 600000 600001 600002
               sample_cached_world).2 !! cacheKey "1722986DCAA8"
    = Some {| data := project sample_doc; timestamp := 600001 |}.
Proof.
  assert (Hq : "1722986DCAA8" ∉ requestQueue sample_cached_world)
    by (vm_compute; set_solver).
  assert (He : qrCache sample_cached_world !! cacheKey "1722986DCAA8"
               = Some {| data := project sample_doc; timestamp := 0 |})
    by reflexivity.
  split.
  - assert (Hs : 599999 - 599999 ≤ CACHE_TTL) by (vm_compute; discriminate).
    destruct (expired_entry_refetched "1722986DCAA8" 599999 599999 599999
                sample_cached_world Hq Hs) as [H _].
    destruct (H _ He) as [Hhit _]. apply Hhit. reflexivity.
  - assert (Hs : 600002 - 600001 ≤ CACHE_TTL) by (vm_compute; discriminate).
    destruct (expired_entry_refetched "1722986DCAA8" 600000 600001 600002
                sample_cached_world Hq Hs) as [H _].
    destruct (H _ He) as [_ Hexp].
    assert (Hage : CACHE_TTL ≤ 600000 - timestamp
                     {| data := project sample_doc; timestamp := 0 |})
      by (vm_compute; discriminate).
    destruct (Hexp Hage) as [H1 H2]. split; [exact H1 | exact (proj2 H2)].
Defined.

(* ===================================================================== *)
(** * 14. What the public lookup can reveal                               *)
(* ===================================================================== *)

(** The lookup reads the collection through the projection only. *)
Lemma getQRCodeByCodePublic_projection c now t_ins t_sweep w1 w2 :
  qrCache w1 = qrCache w2 →
  requestQueue w1 = requestQueue w2 →
  project <$> findOne (db w1) c = project <$> findOne (db w2) c →
  (getQRCodeByCodePublic c now t_ins t_sweep w1).1
    = (getQRCodeByCodePublic c now t_ins t_sweep w2).1
  ∧ qrCache (getQRCodeByCodePublic c now t_ins t_sweep w1).2
    = qrCache (getQRCodeByCodePublic c now t_ins t_sweep w2).2.
Proof.
  intros Hc Hq Hp. unfold getQRCodeByCodePublic. rewrite Hc, Hq.
  destruct (cache_get (qrCache w2) c now); [done|].
  assert (Hdb : ∀ w, db (if decide (c ∈ requestQueue w2) then w
                         else set_requestQueue ({[c]} ∪ requestQueue w2)
                                (fetch_begin c w)) = db w)
    by (intros w; by case_decide).
  assert (Hca : ∀ w, qrCache (if decide (c ∈ requestQueue w2) then w
                              else set_requestQueue ({[c]} ∪ requestQueue w2)
                                     (fetch_begin c w)) = qrCache w)
    by (intros w; by case_decide).
  rewrite !Hdb. unfold fetch_settle.
  destruct (findOne (db w1) c) as [d1|], (findOne (db w2) c) as [d2|];
    simpl in Hp; try discriminate; cbn [fst snd qrCache set_qrCache set_requestQueue].
  - assert (Hpd : project d1 = project d2) by congruence.
    by rewrite !Hca, Hpd, Hc.
  - by rewrite !Hca, Hc.
Qed.

(** C10. The projection of a document does not depend on its [owner],
    [updateOTP], [scanHistory], [scanCount] and [foundBy]. So two
    collections that differ in these fields of a document only give the
    same result of the public lookup, the same cache after it, and the same
    response of [GET /:code]: nothing that the public path returns or
    keeps carries the one-time code, the scan ledger or the owner. *)
Theorem public_lookup_hides_private_fields (c : string) (now t_ins t_sweep : Z)
    (w : world) (d : qrdoc) (o : option string) (u : option otp)
    (h : list scan) (n : Z) (f : option finder) :
  let d' := set_owner o (set_updateOTP u (set_scanHistory h
              (set_scanCount n (set_foundBy f d)))) in
  project d' = project d
  ∧ (getQRCodeByCodePublic c now t_ins t_sweep (save c d' w)).1
    = (getQRCodeByCodePublic c now t_ins t_sweep (save c d w)).1
  ∧ qrCache (getQRCodeByCodePublic c now t_ins t_sweep (save c d' w)).2
    = qrCache (getQRCodeByCodePublic c now t_ins t_sweep (save c d w)).2
  ∧ (get_code c now t_ins t_sweep (save c d' w)).1
    = (get_code c now t_ins t_sweep (save c d w)).1.
Proof.
  intros d'.
  assert (Hp : project d' = project d) by done.
  assert (Hf : project <$> findOne (db (save c d' w)) c
               = project <$> findOne (db (save c d w)) c).
  { unfold findOne, save. cbn [db set_db]. rewrite !lookup_insert_eq.
    change (code d') with (code d). by case_decide. }
  destruct (getQRCodeByCodePublic_projection c now t_ins t_sweep
              (save c d' w) (save c d w) eq_refl eq_refl Hf) as [Hr Hc].
  split; [done|]. split; [done|]. split; [done|].
  unfold get_code.
  destruct (getQRCodeByCodePublic c now t_ins t_sweep (save c d' w)) as [r1 w1'],
           (getQRCodeByCodePublic c now t_ins t_sweep (save c d w)) as [r2 w2'].
  simpl in Hr. subst r2. destruct r1 as [v|m]; [|done]. by case_decide.
Qed.

(* ===================================================================== *)
(** * 15. Writes and the cache                                            *)
(* ===================================================================== *)

(** The writes that evict: after each of them the cache has no entry for
    the code, so the next public lookup goes to the collection. *)
Lemma activateQRCode_evicts c act uid t w d w' :
  activateQRCode c act uid t w = (Ok d, w') →
  qrCache w' !! cacheKey c = None.
Proof.
  unfold activateQRCode.
  destruct (findOne (db w) c) as [d0|]; [|done].
  destruct (isActivated d0); [done|].
  destruct (a_contact act); [|done].
  intros [= _ <-]. apply lookup_delete_eq.
Qed.

Lemma handleScan_evicts c sd t1 t2 w d w' :
  handleScan c sd t1 t2 w = (Ok d, w') →
  qrCache w' !! cacheKey c = None.
Proof.
  unfold handleScan.
  destruct (findOne (db w) c) as [d0|] eqn:Hd; [|done].
  destruct (isActivated d0); [|done]. cbn [negb].
  apply findOne_code in Hd.
  destruct (owner _); [|done].
  intros [= _ <-]. unfold evict. cbn [qrCache set_qrCache].
  replace (code (incrementScanCount _ _ _ _ _ d0)) with c.
  - apply lookup_delete_eq.
  - unfold incrementScanCount. by case_decide.
Qed.

Lemma trackScan_evicts c sd t1 t2 w x w' :
  trackScan c sd t1 t2 w = (Ok x, w') →
  qrCache w' !! cacheKey c = None.
Proof.
  unfold trackScan.
  destruct (findOne (db w) c) as [d0|] eqn:Hd; [|done].
  destruct (isActivated d0); [|done]. cbn [negb].
  apply findOne_code in Hd.
  intros [= _ <-]. unfold evict. cbn [qrCache set_qrCache].
  replace (code (incrementScanCount _ _ _ _ _ d0)) with c.
  - apply lookup_delete_eq.
  - unfold incrementScanCount. by case_decide.
Qed.

Lemma reportFound_evicts c fd t w d w' :
  reportFound c fd t w = (Ok d, w') →
  qrCache w' !! cacheKey c = None.
Proof.
  unfold reportFound.
  destruct (findOne (db w) c) as [d0|] eqn:Hd; [|done].
  case_decide; [done|].
  apply findOne_code in Hd.
  intros [= _ <-]. unfold evict. cbn [qrCache set_qrCache markAsFound code set_foundBy set_status].
  rewrite Hd. apply lookup_delete_eq.
Qed.

(** An eviction touches the entry of its own code only. *)
Lemma evict_other c c' w :
  c ≠ c' → qrCache (evict c w) !! cacheKey c' = qrCache w !! cacheKey c'.
Proof.
  intros Hne. unfold evict. cbn [qrCache set_qrCache].
  apply lookup_delete_ne. intros Heq. by apply Hne, cacheKey_inj.
Qed.

(** The writes that do not: [updateQRCode] and [toggleQRCodeStatus] leave
    the cache as it is, and with it any entry of the code. *)
Lemma updateQRCode_keeps_cache c upd w :
  qrCache (updateQRCode c upd w).2 = qrCache w.
Proof. unfold updateQRCode. by destruct (findOne (db w) c). Qed.

Lemma toggleQRCodeStatus_keeps_cache c s w :
  qrCache (toggleQRCodeStatus c s w).2 = qrCache w.
Proof. unfold toggleQRCodeStatus. by destruct (findOne (db w) c). Qed.

(** So an entry that is young enough is what the public lookup returns
    after such a write, whatever the write has stored. *)
Lemma stale_hit_after_toggle c s now t_ins t_sweep w e :
  qrCache w !! cacheKey c = Some e →
  now - timestamp e < CACHE_TTL →
  (getQRCodeByCodePublic c now t_ins t_sweep (toggleQRCodeStatus c s w).2).1
  = Ok (data e).
Proof.
  intros He Hfresh. unfold getQRCodeByCodePublic.
  rewrite toggleQRCodeStatus_keeps_cache.
  assert (cache_get (qrCache w) c now = Some (data e)) as ->; [|done].
  apply cache_get_Some. by exists e.
Qed.

Lemma stale_hit_after_update c upd now t_ins t_sweep w e :
  qrCache w !! cacheKey c = Some e →
  now - timestamp e < CACHE_TTL →
  (getQRCodeByCodePublic c now t_ins t_sweep (updateQRCode c upd w).2).1
  = Ok (data e).
Proof.
  intros He Hfresh. unfold getQRCodeByCodePublic.
  rewrite updateQRCode_keeps_cache.
  assert (cache_get (qrCache w) c now = Some (data e)) as ->; [|done].
  apply cache_get_Some. by exists e.
Qed.

(** C1, on the sample code after a public lookup has cached it at time 0.
    The owner toggles the status, with success, and the collection holds
    [inactive]; the entry of the code is still in the cache, and the public
    lookup one second later sends no query and answers with the snapshot
    taken before the toggle, whose status is [active], so that [GET /:code]
    serves the code as before. The same holds after an update of the
    details: the lookup still answers with the old name. *)
Theorem stale_lookup_after_toggle_and_update :
  (http (patch_toggle_status "u1" "1722986DCAA8" sample_cached_world).1 = 200
   ∧ status <$> findOne
       (db (patch_toggle_status "u1" "1722986DCAA8" sample_cached_world).2)
       "1722986DCAA8" = Some inactive
   ∧ qrCache (patch_toggle_status "u1" "1722986DCAA8" sample_cached_world).2
       !! cacheKey "1722986DCAA8"
     = Some {| data := project sample_doc; timestamp := 0 |}
   ∧ getQRCodeByCodePublic "1722986DCAA8" 1000 1000 1000
       (patch_toggle_status "u1" "1722986DCAA8" sample_cached_world).2
     = (Ok (project sample_doc),
        (patch_toggle_status "u1" "1722986DCAA8" sample_cached_world).2)
   ∧ v_status (project sample_doc) = active
   ∧ http (get_code "1722986DCAA8" 1000 1000 1000
       (patch_toggle_status "u1" "1722986DCAA8" sample_cached_world).2).1 = 200)
  ∧ (http (put_code "u1" "1722986DCAA8" rename_patch sample_cached_world).1 = 200
     ∧ (details <$> findOne
          (db (put_code "u1" "1722986DCAA8" rename_patch sample_cached_world).2)
          "1722986DCAA8") ≫= (.!! "name") = Some (JStr "Suitcase")
     ∧ getQRCodeByCodePublic "1722986DCAA8" 1000 1000 1000
         (put_code "u1" "1722986DCAA8" rename_patch sample_cached_world).2
       = (Ok (project sample_doc),
          (put_code "u1" "1722986DCAA8" rename_patch sample_cached_world).2)
     ∧ v_details (project sample_doc) !! "name" = Some (JStr "Backpack")).
Proof. repeat split; reflexivity. Qed.

(* ===================================================================== *)
(** * 16. Coalescing of concurrent lookups                                *)
(* ===================================================================== *)

Lemma run_app es1 es2 l : run (es1 ++ es2) l = run es2 (run es1 l).
Proof. unfold run. apply foldl_app. Qed.

Lemma run_cons e es l : run (e :: es) l = run es (step l e).
Proof. reflexivity. Qed.

Lemma arrivals_cons c p who :
  arrivals c (p :: who) = Arrive p.1 c p.2 :: arrivals c who.
Proof. reflexivity. Qed.

Lemma cache_get_absent m c now :
  m !! cacheKey c = None → cache_get m c now = None.
Proof. intros H. unfold cache_get. by rewrite H. Qed.

(** Callers that arrive while the fetch of the code is in flight only
    join the callers that wait for it. *)
Lemma arrivals_join c who l :
  qrCache (state l) !! cacheKey c = None →
  c ∈ requestQueue (state l) →
  run (arrivals c who) l
  = {| state := state l;
       waiting := waiting l ++ ((λ p, (p.1, c)) <$> who);
       replies := replies l |}.
Proof.
  revert l. induction who as [|p who IH]; intros l Hc Hq.
  - simpl. rewrite app_nil_r. by destruct l.
  - rewrite arrivals_cons, run_cons.
    assert (Hs : step l (Arrive p.1 c p.2)
                 = {| state := state l; waiting := waiting l ++ [(p.1, c)];
                      replies := replies l |}).
    { unfold step. by rewrite (cache_get_absent _ _ _ Hc), decide_True. }
    rewrite Hs, IH by done. cbn [state waiting replies fmap list_fmap].
    by rewrite <- app_assoc.
Qed.

(** The first caller of a code that is neither cached nor being fetched
    sends the query and registers the promise; the others join. *)
Lemma arrivals_start c p who l :
  qrCache (state l) !! cacheKey c = None →
  c ∉ requestQueue (state l) →
  run (arrivals c (p :: who)) l
  = {| state := set_requestQueue ({[c]} ∪ requestQueue (state l))
                  (fetch_begin c (state l));
       waiting := waiting l ++ ((λ p, (p.1, c)) <$> (p :: who));
       replies := replies l |}.
Proof.
  intros Hc Hq. rewrite arrivals_cons, run_cons.
  assert (Hs : step l (Arrive p.1 c p.2)
               = {| state := set_requestQueue ({[c]} ∪ requestQueue (state l))
                               (fetch_begin c (state l));
                    waiting := waiting l ++ [(p.1, c)];
                    replies := replies l |}).
  { unfold step. by rewrite (cache_get_absent _ _ _ Hc), decide_False. }
  rewrite Hs, arrivals_join; cbn [state waiting replies qrCache requestQueue
                                   set_requestQueue fetch_begin set_queries
                                   fmap list_fmap].
  - by rewrite <- app_assoc.
  - done.
  - apply elem_of_union_l. by apply elem_of_singleton.
Qed.

(** Among the suspended callers, those of the code are the ones that have
    just arrived. *)
Lemma filter_waiting_on c (ws : list (nat * string)) (who : list (nat * Z)) :
  Forall (λ p, p.2 ≠ c) ws →
  filter (λ p, p.2 = c) (ws ++ ((λ p, (p.1, c)) <$> who))
    = ((λ p, (p.1, c)) <$> who)
  ∧ filter (λ p, p.2 ≠ c) (ws ++ ((λ p, (p.1, c)) <$> who)) = ws.
Proof.
  intros Hws. rewrite !filter_app.
  assert (H1 : filter (λ p : nat * string, p.2 = c) ws = []).
  { induction Hws as [|x ws Hx _ IH]; [done|]. by rewrite filter_cons_False. }
  assert (H2 : filter (λ p : nat * string, p.2 ≠ c) ws = ws).
  { clear H1. induction Hws as [|x ws Hx _ IH]; [done|].
    rewrite filter_cons_True by done. by rewrite IH. }
  assert (H3 : filter (λ p : nat * string, p.2 = c) ((λ p : nat * Z, (p.1, c)) <$> who)
               = ((λ p : nat * Z, (p.1, c)) <$> who)).
  { induction who as [|x who IH]; [done|].
    rewrite fmap_cons, filter_cons_True by done. by rewrite IH. }
  assert (H4 : filter (λ p : nat * string, p.2 ≠ c) ((λ p : nat * Z, (p.1, c)) <$> who)
               = []).
  { clear H3. induction who as [|x who IH]; [done|].
    rewrite fmap_cons, filter_cons_False; [done|]. simpl. by intros []. }
  rewrite H1, H2, H3, H4. by rewrite app_nil_r.
Qed.

(** The result of a fetch depends on what the query settled with only. *)
Lemma fetch_settle_result c q t_ins t_sweep w w' :
  (fetch_settle c q t_ins t_sweep w).1 = (fetch_settle c q t_ins t_sweep w').1.
Proof. by destruct q as [[d|]|]. Qed.

(** The settlement of a registered fetch, spelled out. *)
Lemma step_settle c fail t_ins t_sweep l :
  c ∈ requestQueue (state l) →
  step l (Settle c fail t_ins t_sweep)
  = let rw := fetch_settle c
                (match fail with
                 | Some m => Err m
                 | None => Ok (findOne (db (state l)) c)
                 end) t_ins t_sweep (state l) in
    {| state := set_requestQueue (requestQueue rw.2 ∖ {[c]}) rw.2;
       waiting := filter (λ p, p.2 ≠ c) (waiting l);
       replies := replies l ++
         ((λ p, (p.1, wrap "Failed to get QR code: " rw.1)) <$>
            filter (λ p, p.2 = c) (waiting l)) |}.
Proof.
  intros Hq. unfold step. rewrite decide_True by done.
  by destruct (fetch_settle _ _ _ _ _).
Qed.

Lemma fmap_replies (c : string) (r : result view) (who : list (nat * Z)) :
  (λ p : nat * string, (p.1, r)) <$> ((λ p : nat * Z, (p.1, c)) <$> who)
  = (λ p : nat * Z, (p.1, r)) <$> who.
Proof. rewrite <- list_fmap_compose. by apply list_fmap_ext. Qed.



Lemma consistent_at_rest w rs : consistent {| state := w; waiting := []; replies := rs |}.
Proof. apply Forall_nil_2. Qed.

Lemma consistent_not_waiting c l :
  consistent l →
  c ∉ requestQueue (state l) →
  Forall (λ p, p.2 ≠ c) (waiting l).
Proof.
  intros Hl Hq. eapply Forall_impl; [exact Hl|].
  intros p Hp Heq. apply Hq. by rewrite <- Heq.
Qed.

(** What every caller of a settled fetch receives. *)
Lemma settle_result c fail t_ins t_sweep w :
  wrap "Failed to get QR code: "
    (fetch_settle c
       (match fail with Some m => Err m | None => Ok (findOne (db w) c) end)
       t_ins t_sweep w).1
  = match fail, findOne (db w) c with
    | Some m, _ => Err ("Failed to get QR code: " +:+ m)
    | None, Some d => Ok (project d)
    | None, None => Err "Failed to get QR code: QR code not found"
    end.
Proof. by destruct fail, (findOne (db w) c). Qed.

(** C9. Let [N >= 1] callers look up a code that is not cached and has no
    fetch in flight, in any state that the process can be in, all of them
    before the query of the first one settles. Then one query is sent to the collection; while it is in
    flight the code is registered and no caller has a result; when it
    settles, with the document, with nothing, or with a failure of the
    store, each of the [N] callers receives the same result, which is the
    projection of the document or the error, and the registration is gone,
    so that the next caller that misses the cache sends a new query. *)
Theorem concurrent_lookups_coalesce (c : string) (who : list (nat * Z))
    (fail : option string) (t_ins t_sweep : Z) (l : loop) :
  who ≠ [] →
  qrCache (state l) !! cacheKey c = None →
  c ∉ requestQueue (state l) →
  consistent l →
  let l1 := run (arrivals c who) l in
  let l2 := run (arrivals c who ++ [Settle c fail t_ins t_sweep]) l in
  let r := match fail, findOne (db (state l)) c with
           | Some m, _ => Err ("Failed to get QR code: " +:+ m)
           | None, Some d => Ok (project d)
           | None, None => Err "Failed to get QR code: QR code not found"
           end in
  (queries (state l1) = queries (state l) ++ [c]
   ∧ c ∈ requestQueue (state l1)
   ∧ replies l1 = replies l)
  ∧ queries (state l2) = queries (state l) ++ [c]
  ∧ replies l2 = replies l ++ ((λ p, (p.1, r)) <$> who)
  ∧ requestQueue (state l2) = requestQueue (state l)
  ∧ waiting l2 = waiting l
  ∧ ∀ i now, cache_get (qrCache (state l2)) c now = None →
      queries (state (step l2 (Arrive i c now))) = queries (state l) ++ [c; c].
Proof.
  intros Hne Hc Hq Hl l1 l2 r.
  pose proof (consistent_not_waiting c l Hl Hq) as Hws.
  destruct who as [|p who]; [done|].
  assert (Hin : c ∈ {[c]} ∪ requestQueue (state l))
    by (apply elem_of_union_l; by apply elem_of_singleton).
  assert (Hl1 : l1 = {| state := set_requestQueue ({[c]} ∪ requestQueue (state l))
                                   (fetch_begin c (state l));
                        waiting := waiting l ++ ((λ p, (p.1, c)) <$> (p :: who));
                        replies := replies l |})
    by (by apply arrivals_start).
  assert (Hl2 : l2 = step l1 (Settle c fail t_ins t_sweep))
    by (subst l1 l2; by rewrite run_app).
  split; [by rewrite Hl1|].
  destruct (filter_waiting_on c (waiting l) (p :: who) Hws) as [Hf1 Hf2].
  rewrite Hl2, step_settle by (by rewrite Hl1).
  rewrite Hl1. cbv zeta.
  cbn [state waiting replies db set_requestQueue fetch_begin set_queries].
  rewrite Hf1, Hf2, fmap_replies.
  rewrite (fetch_settle_result c _ t_ins t_sweep _ (state l)), settle_result.
  fold r. cbn [state waiting replies queries requestQueue set_requestQueue].
  rewrite fetch_settle_queries, fetch_settle_requestQueue.
  cbn [queries requestQueue set_requestQueue].
  rewrite (requestQueue_restored c _ Hq).
  split; [done|]. split; [done|]. split; [done|]. split; [done|].
  intros i now Hmiss. unfold step. cbn [state] in Hmiss |- *.
  rewrite Hmiss. cbn [requestQueue set_requestQueue].
  rewrite decide_False by done.
  cbn [state queries set_requestQueue fetch_begin set_queries].
  rewrite fetch_settle_queries. cbn [queries set_requestQueue fetch_begin set_queries].
  by rewrite <- app_assoc.
Qed.

Lemma concurrent_lookups_coalesce_witness :
  queries (state (run (arrivals "1722986DCAA8" three_callers
                         ++ [Settle "1722986DCAA8" None 20 21]) sample_loop))
    = ["1722986DCAA8"]
  ∧ replies (run (arrivals "1722986DCAA8" three_callers
                    ++ [Settle "1722986DCAA8" None 20 21]) sample_loop)
    = [(1%nat, Ok (project sample_doc)); (2%nat, Ok (project sample_doc));
       (3%nat, Ok (project sample_doc))]
  ∧ requestQueue (state (run (arrivals "1722986DCAA8" three_callers
                                ++ [Settle "1722986DCAA8" None 20 21])
                           sample_loop))
    = ∅.
Proof.
  assert (H1 : three_callers ≠ []) by discriminate.
  assert (H2 : qrCache (state sample_loop) !! cacheKey "1722986DCAA8" = None)
    by reflexivity.
  assert (H3 : "1722986DCAA8" ∉ requestQueue (state sample_loop))
    by apply not_elem_of_empty.
  assert (H4 : consistent sample_loop) by apply consistent_at_rest.
  destruct (concurrent_lookups_coalesce "1722986DCAA8" three_callers None
              20 21 sample_loop H1 H2 H3 H4)
    as (_ & Hq & Hr & Hrq & _).
  split; [exact Hq|]. split; [exact Hr | exact Hrq].
Defined.

(** The lookup run to its end is the schedule of one caller: its arrival,
    then the settlement of its query. *)
Lemma getQRCodeByCodePublic_as_schedule c now t_ins t_sweep w i :
  c ∉ requestQueue w →
  run [Arrive i c now; Settle c None t_ins t_sweep]
      {| state := w; waiting := []; replies := [] |}
  = {| state := (getQRCodeByCodePublic c now t_ins t_sweep w).2;
       waiting := [];
       replies := [(i, (getQRCodeByCodePublic c now t_ins t_sweep w).1)] |}.
Proof.
  intros Hq. rewrite !run_cons. unfold getQRCodeByCodePublic.
  unfold step at 2. cbn [state waiting replies].
  destruct (cache_get (qrCache w) c now) as [v|].
  - unfold step. cbn [state]. by rewrite decide_False.
  - rewrite !decide_False by done.
    rewrite step_settle
      by (cbn; apply elem_of_union_l; by apply elem_of_singleton).
    cbv zeta. cbn [state waiting replies db set_requestQueue fetch_begin
                   set_queries app].
    rewrite filter_cons_False, filter_cons_True, !filter_nil by (simpl; auto).
    by destruct (fetch_settle _ _ _ _ _).
Qed.

(* ===================================================================== *)
(** * 17. What the requests keep                                          *)
(* ===================================================================== *)

Lemma findOne_lookup m c d : findOne m c = Some d → m !! c = Some d.
Proof.
  unfold findOne. destruct (m !! c) as [d0|]; [|done].
  case_decide; congruence.
Qed.

Lemma evolves_refl d : evolves d d.
Proof. unfold evolves. split_and!; try done; lia. Qed.

Lemma evolves_trans d1 d2 d3 : evolves d1 d2 → evolves d2 d3 → evolves d1 d3.
Proof.
  unfold evolves. intros (?&?&?&?&?&?) (?&?&?&?&?&?).
  split_and!; try congruence; try lia; auto.
Qed.

Lemma incrementScanCount_fields ip ua loc t1 t2 d :
  let d' := incrementScanCount ip ua loc t1 t2 d in
  doc_id d' = doc_id d ∧ code d' = code d ∧ type d' = type d
  ∧ owner d' = owner d ∧ details d' = details d ∧ contact d' = contact d
  ∧ settings d' = settings d ∧ status d' = status d
  ∧ isActivated d' = isActivated d ∧ activationDate d' = activationDate d
  ∧ foundBy d' = foundBy d ∧ qrImageUrl d' = qrImageUrl d
  ∧ updateOTP d' = updateOTP d
  ∧ scanCount d' = scanCount d + 1 ∧ lastScanned d' = Some t1.
Proof. unfold incrementScanCount. by case_decide. Qed.

Lemma incrementScanCount_evolves ip ua loc t1 t2 d :
  evolves d (incrementScanCount ip ua loc t1 t2 d).
Proof.
  destruct (incrementScanCount_fields ip ua loc t1 t2 d)
    as (Hid & Hc & Ht & Ho & _ & _ & _ & Hs & Ha & _ & Hf & _ & _ & Hn & _).
  unfold evolves, doc_ok.
  rewrite Hid, Hc, Ht, Ho, Hs, Ha, Hf, Hn, incrementScanCount_history,
    slice_last_length.
  repeat split; try done; try lia. all: tauto.
Qed.

Lemma markAsFound_evolves fd t d : evolves d (markAsFound fd t d).
Proof.
  unfold evolves, doc_ok, markAsFound. cbn.
  repeat split; try done; try lia; try tauto. all: by eexists.
Qed.

Lemma set_if_evolves upd d :
  evolves d (set_if set_settings (u_settings upd)
               (set_if set_contact (u_contact upd)
                  (set_if set_details (u_details upd) d))).
Proof.
  destruct upd as [[?|] [?|] [?|]]; unfold evolves, doc_ok; cbn;
    split_and!; try done; lia.
Qed.

Lemma set_updateOTP_evolves x d : evolves d (set_updateOTP x d).
Proof. unfold evolves, doc_ok; cbn; split_and!; try done; lia. Qed.

Lemma toggle_evolves d :
  evolves d (set_status (if decide (status d = active) then inactive else active) d).
Proof.
  unfold evolves, doc_ok. cbn.
  repeat split; try done; try lia; try tauto.
  by case_decide.
Qed.

Lemma activate_evolves uid t x y z d :
  evolves d (set_settings z (set_contact y (set_details x
    (set_owner (Some uid) (set_activationDate (Some t)
       (set_isActivated true d)))))).
Proof.
  unfold evolves, doc_ok. cbn.
  repeat split; try done; try lia; try tauto. all: by eexists.
Qed.

Lemma getQRCodeByCodePublic_db c now t_ins t_sweep w :
  db (getQRCodeByCodePublic c now t_ins t_sweep w).2 = db w.
Proof.
  unfold getQRCodeByCodePublic.
  destruct (cache_get (qrCache w) c now); [done|].
  destruct (fetch_settle _ _ _ _ _) as [r w2] eqn:Hfs.
  cbn [snd db set_requestQueue].
  change w2 with (r, w2).2. rewrite <- Hfs, fetch_settle_db.
  by case_decide.
Qed.

Lemma db_moves_save c d d' w :
  findOne (db w) c = Some d → evolves d d' →
  db_moves (db w) (db (save c d' w)) c.
Proof. intros Hd He. right. left. by exists d, d'. Qed.

(** Each request moves the collection in one of the three ways, on the
    document of its own code. *)
Lemma serve_db_moves r w : db_moves (db w) (db (serve w r)) (target r).
Proof.
  destruct r as [c now ti ts|uid c act t|c ip ua loc t1 t2|c ip ua loc t1 t2
                |c b t|user c upd|user c|user c ne np o now|user c o upd now
                |user c]; cbn [serve target].
  - left. unfold get_code.
    pose proof (getQRCodeByCodePublic_db c now ti ts w) as Hdb.
    destruct (getQRCodeByCodePublic c now ti ts w) as [[v|m] w']; cbn in *;
      [by case_decide|done].
  - unfold post_activate, getQRCodeByCodeForOwnership.
    destruct (findOne (db w) c) as [d|] eqn:Hd; [|by left].
    destruct (isActivated d) eqn:Ha.
    { left. destruct (owner d); [by case_decide|done]. }
    unfold activateQRCode. rewrite Hd, Ha.
    destruct (a_contact act); [|by left].
    cbn [snd]. apply (db_moves_save c d _ w Hd), activate_evolves.
  - unfold post_scan, handleScan.
    destruct (findOne (db w) c) as [d|] eqn:Hd; [|by left].
    destruct (isActivated d); [|by left]. cbn [negb].
    destruct (owner _); cbn [snd];
      apply (db_moves_save c d _ w Hd), incrementScanCount_evolves.
  - unfold post_track_scan, trackScan.
    destruct (findOne (db w) c) as [d|] eqn:Hd; [|by left].
    destruct (isActivated d); [|by left]. cbn [negb snd].
    apply (db_moves_save c d _ w Hd), incrementScanCount_evolves.
  - unfold post_found, reportFound.
    destruct (findOne (db w) c) as [d|] eqn:Hd; [|by left].
    case_decide; [by left|]. cbn [snd].
    apply (db_moves_save c d _ w Hd), markAsFound_evolves.
  - unfold put_code, verify_ownership, getQRCodeByCodeForOwnership, updateQRCode.
    destruct (findOne (db w) c) as [d|] eqn:Hd; [|by left].
    destruct (owner d); [|by left]. case_decide; [|by left]. cbn [snd].
    apply (db_moves_save c d _ w Hd), set_if_evolves.
  - unfold delete_code, verify_ownership, getQRCodeByCodeForOwnership.
    destruct (findOne (db w) c) as [d|] eqn:Hd; [|by left].
    destruct (owner d); [|by left]. case_decide; [|by left].
    right. right. by rewrite Hd.
  - unfold post_send_update_otp, verify_ownership, getQRCodeByCodeForOwnership,
      storeUpdateOTP.
    destruct (findOne (db w) c) as [d|] eqn:Hd; [|by left].
    destruct (owner d); [|by left]. case_decide; [|by left]. cbn [snd].
    apply (db_moves_save c d _ w Hd), set_updateOTP_evolves.
  - unfold post_verify_update_otp.
    case_decide; [|by left].
    unfold verify_ownership, getQRCodeByCodeForOwnership.
    destruct (findOne (db w) c) as [d|] eqn:Hd; [|by left].
    destruct (owner d); [|by left]. case_decide; [|by left].
    destruct (verifyUpdateOTP c o now w); [|by left].
    unfold updateQRCode. rewrite Hd. cbn [snd].
    unfold clearUpdateOTP.
    rewrite findOne_save
      by (apply findOne_code in Hd; by destruct upd as [[?|] [?|] [?|]]).
    right. left. eexists d, _. split; [done|]. split.
    + eapply evolves_trans; [apply set_if_evolves|apply set_updateOTP_evolves].
    + unfold save. cbn [db set_db]. by rewrite insert_insert_eq.
  - unfold patch_toggle_status, verify_ownership, getQRCodeByCodeForOwnership,
      toggleQRCodeStatus.
    destruct (findOne (db w) c) as [d|] eqn:Hd; [|by left].
    destruct (owner d); [|by left]. case_decide; [|by left].
    cbn [snd].
    apply (db_moves_save c d _ w Hd), toggle_evolves.
Qed.

Lemma serve_evolves r w c d' :
  db (serve w r) !! c = Some d' →
  ∃ d, db w !! c = Some d ∧ evolves d d'.
Proof.
  intros Hd'.
  destruct (serve_db_moves r w) as [Heq|[(d & dn & Hd & He & Heq)|[_ Heq]]];
    rewrite Heq in Hd'.
  - exists d'. split; [done|apply evolves_refl].
  - destruct (decide (c = target r)) as [->|Hne].
    + rewrite lookup_insert_eq in Hd'. injection Hd' as <-.
      exists d. split; [by apply findOne_lookup|done].
    + rewrite lookup_insert_ne in Hd' by done.
      exists d'. split; [done|apply evolves_refl].
  - destruct (decide (c = target r)) as [->|Hne].
    + by rewrite lookup_delete_eq in Hd'.
    + rewrite lookup_delete_ne in Hd' by done.
      exists d'. split; [done|apply evolves_refl].
Qed.

Lemma serve_all_snoc rs r w : serve_all (rs ++ [r]) w = serve (serve_all rs w) r.
Proof. unfold serve_all. by rewrite foldl_app. Qed.

Lemma serve_all_evolves rs w c d' :
  db (serve_all rs w) !! c = Some d' →
  ∃ d, db w !! c = Some d ∧ evolves d d'.
Proof.
  revert d'. induction rs as [|r rs IH] using rev_ind; intros d' Hd'.
  - exists d'. split; [done|apply evolves_refl].
  - rewrite serve_all_snoc in Hd'.
    apply serve_evolves in Hd' as (d1 & Hd1 & He1).
    apply IH in Hd1 as (d & Hd & He).
    exists d. split; [done|by eapply evolves_trans].
Qed.

(** X1. Whatever requests are served, in whatever order, they create no
    document, and a document that is still stored has its [_id], [code]
    and [type] of before, a [scanCount] that is not smaller, and is still
    activated if it was. *)
Theorem requests_keep_identity (rs : list request) (w : world) (c : string)
    (d' : qrdoc) :
  db (serve_all rs w) !! c = Some d' →
  ∃ d, db w !! c = Some d
       ∧ doc_id d' = doc_id d ∧ code d' = code d ∧ type d' = type d
       ∧ scanCount d ≤ scanCount d'
       ∧ (isActivated d = true → isActivated d' = true).
Proof.
  intros Hd'. apply serve_all_evolves in Hd' as (d & Hd & He).
  exists d. unfold evolves in He. by destruct He as (?&?&?&?&?&_).
Qed.

(** X2. The requests keep the collection well formed: when every stored
    document has at most 50 history entries, an owner if it is activated
    and a finder if its status is [found], the same holds after any
    sequence of requests. *)
Theorem requests_keep_store_ok (rs : list request) (w : world) :
  store_ok w → store_ok (serve_all rs w).
Proof.
  intros Hw c d' Hd'. apply serve_all_evolves in Hd' as (d & Hd & He).
  unfold evolves in He. destruct He as (_&_&_&_&_&Hok).
  apply Hok. by apply (Hw c).
Qed.

(** X3. A request changes no document but the one of its own code. *)
Theorem requests_frame (r : request) (w : world) (c : string) :
  c ≠ target r →
  db (serve w r) !! c = db w !! c.
Proof.
  intros Hne.
  destruct (serve_db_moves r w) as [Heq|[(d & dn & Hd & He & Heq)|[_ Heq]]];
    rewrite Heq; [done| |].
  - by rewrite lookup_insert_ne.
  - by rewrite lookup_delete_ne.
Qed.

(** X4. The requests that go through the ownership test change nothing,
    neither the collection nor the cache, unless the user of the token is
    the owner of the stored document: a missing code, a document without
    owner and the document of another user all leave the state as it is. *)
Theorem private_requests_need_owner (r : request) (user : string) (w : world) :
  requester r = Some user →
  (∀ d, findOne (db w) (target r) = Some d → owner d ≠ Some user) →
  serve w r = w.
Proof.
  intros Hr Hown.
  assert (Hv : ∀ c, c = target r →
            ∃ x, verify_ownership (A := qrdoc) user c w = inl x).
  { intros c ->. unfold verify_ownership, getQRCodeByCodeForOwnership.
    destruct (findOne (db w) (target r)) as [d|] eqn:Hd; [|by eexists].
    specialize (Hown d eq_refl).
    destruct (owner d) as [o|]; [|by eexists].
    case_decide; [congruence|by eexists]. }
  destruct r; cbn [requester] in Hr; try discriminate;
    injection Hr as ->; cbn [serve target] in *;
    destruct (Hv _ eq_refl) as [x Hx].
  - unfold put_code. by rewrite Hx.
  - unfold delete_code. by rewrite Hx.
  - unfold post_send_update_otp. by rewrite Hx.
  - unfold post_verify_update_otp. case_decide; [|done]. by rewrite Hx.
  - unfold patch_toggle_status. by rewrite Hx.
Qed.

Lemma requests_keep_identity_witness :
  ∃ d', db (serve_all sample_requests sample_two_world) !! "1722986DCAA8"
        = Some d'
        ∧ doc_id d' = doc_id sample_doc ∧ code d' = code sample_doc
        ∧ type d' = type sample_doc
        ∧ scanCount sample_doc ≤ scanCount d'
        ∧ isActivated d' = true.
Proof.
  destruct (db (serve_all sample_requests sample_two_world) !! "1722986DCAA8")
    as [d'|] eqn:Hd'; [|vm_compute in Hd'; discriminate].
  destruct (requests_keep_identity sample_requests sample_two_world
              "1722986DCAA8" d' Hd') as (d & Hd & H1 & H2 & H3 & H4 & H5).
  assert (Hs : db sample_two_world !! "1722986DCAA8" = Some sample_doc)
    by reflexivity.
  rewrite Hs in Hd. injection Hd as <-.
  exists d'. split; [reflexivity|].
  split; [exact H1|]. split; [exact H2|]. split; [exact H3|].
  split; [exact H4|]. apply H5. reflexivity.
Defined.

Lemma doc_ok_sample : doc_ok sample_doc ∧ doc_ok other_doc.
Proof.
  unfold doc_ok. cbn. split_and!; try done; try lia; eauto.
Qed.

Lemma store_ok_sample : store_ok sample_two_world.
Proof.
  intros c d Hd. unfold sample_two_world in Hd. cbn [db] in Hd.
  apply lookup_insert_Some in Hd as [[_ <-]|[_ Hd]];
    [apply doc_ok_sample|].
  apply lookup_singleton_Some in Hd as [_ <-]. apply doc_ok_sample.
Qed.

Lemma requests_keep_store_ok_witness :
  store_ok sample_two_world
  ∧ store_ok (serve_all sample_requests sample_two_world).
Proof.
  split; [exact store_ok_sample|].
  exact (requests_keep_store_ok sample_requests sample_two_world
           store_ok_sample).
Defined.

Lemma requests_frame_witness :
  db (serve sample_two_world (Toggle "u1" "1722986DCAA8")) !! "AAAABBBBCCCC"
  = Some other_doc.
Proof.
  assert (Hne : "AAAABBBBCCCC" ≠ target (Toggle "u1" "1722986DCAA8"))
    by discriminate.
  rewrite (requests_frame (Toggle "u1" "1722986DCAA8") sample_two_world
             "AAAABBBBCCCC" Hne).
  reflexivity.
Defined.

Lemma private_requests_need_owner_witness :
  serve sample_two_world (Delete "u2" "1722986DCAA8") = sample_two_world
  ∧ serve sample_two_world (Toggle "u1" "000000000000") = sample_two_world.
Proof.
  split.
  - apply (private_requests_need_owner (Delete "u2" "1722986DCAA8") "u2");
      [reflexivity|].
    intros d Hd. change (Some sample_doc = Some d) in Hd.
    injection Hd as <-. discriminate.
  - apply (private_requests_need_owner (Toggle "u1" "000000000000") "u1");
      [reflexivity|].
    intros d Hd. vm_compute in Hd. discriminate.
Defined.

(* ===================================================================== *)
(** * 18. More on the cache of the public lookup                          *)
(* ===================================================================== *)

(** The three ways in which a lookup ends, with or without a fetch in
    flight. *)
Lemma getQRCodeByCodePublic_cases c now t_ins t_sweep w :
  let r := getQRCodeByCodePublic c now t_ins t_sweep w in
  (∃ e, qrCache w !! cacheKey c = Some e ∧ now - timestamp e < CACHE_TTL
        ∧ r = (Ok (data e), w))
  ∨ (cache_get (qrCache w) c now = None ∧ findOne (db w) c = None
     ∧ r.1 = Err "Failed to get QR code: QR code not found"
     ∧ qrCache r.2 = qrCache w)
  ∨ (cache_get (qrCache w) c now = None
     ∧ ∃ d, findOne (db w) c = Some d ∧ r.1 = Ok (project d)
            ∧ qrCache r.2
              = cleanupCache t_sweep
                  (<[cacheKey c := {| data := project d; timestamp := t_ins |}]>
                     (qrCache w))).
Proof.
  intros r. subst r. unfold getQRCodeByCodePublic.
  destruct (cache_get (qrCache w) c now) as [v|] eqn:Hget.
  - left. apply cache_get_Some in Hget as (e & He & <- & Hlt). by exists e.
  - right.
    assert (Hdb : db (if decide (c ∈ requestQueue w) then w
                      else set_requestQueue ({[c]} ∪ requestQueue w)
                             (fetch_begin c w)) = db w) by (by case_decide).
    assert (Hca : qrCache (if decide (c ∈ requestQueue w) then w
                           else set_requestQueue ({[c]} ∪ requestQueue w)
                                  (fetch_begin c w)) = qrCache w)
      by (by case_decide).
    rewrite Hdb. unfold fetch_settle.
    destruct (findOne (db w) c) as [d|]; cbn [fst snd qrCache set_qrCache
                                               set_requestQueue wrap].
    + right. split; [done|]. exists d. by rewrite Hca.
    + left. by rewrite Hca.
Qed.

(** X5. A lookup that fetches a stored code sweeps the cache: afterwards
    no entry is older than the TTL at the time of the sweep, and the
    entries of the other codes are those that were there and are not older
    than the TTL, unchanged. *)
Theorem fetch_sweeps_cache (c : string) (now t_ins t_sweep : Z) (w : world)
    (d : qrdoc) :
  cache_get (qrCache w) c now = None →
  findOne (db w) c = Some d →
  let w' := (getQRCodeByCodePublic c now t_ins t_sweep w).2 in
  (∀ k e, qrCache w' !! k = Some e → t_sweep - timestamp e ≤ CACHE_TTL)
  ∧ (∀ k e, k ≠ cacheKey c →
       qrCache w' !! k = Some e
       ↔ qrCache w !! k = Some e ∧ t_sweep - timestamp e ≤ CACHE_TTL).
Proof.
  intros Hmiss Hd w'.
  destruct (getQRCodeByCodePublic_cases c now t_ins t_sweep w)
    as [(e & He & Hlt & _)|[(_ & Hn & _)|(_ & d0 & _ & _ & Hc)]].
  - assert (cache_get (qrCache w) c now = Some (data e))
      by (apply cache_get_Some; by exists e).
    congruence.
  - congruence.
  - subst w'. rewrite Hc. unfold cleanupCache. split.
    + intros k e Hk. apply map_lookup_filter_Some in Hk as [_ Hk].
      simpl in Hk. lia.
    + intros k e Hne. rewrite map_lookup_filter_Some, lookup_insert_ne by done.
      simpl. split; intros [? ?]; split; try done; lia.
Qed.

Lemma fetch_sweeps_cache_witness :
  qrCache (getQRCodeByCodePublic "1722986DCAA8" 600000 600001 600002
             sample_cached_world).2 !! cacheKey "1722986DCAA8"
    = Some {| data := project sample_doc; timestamp := 600001 |}
  ∧ 600002 - timestamp {| data := project sample_doc; timestamp := 600001 |}
    ≤ CACHE_TTL.
Proof.
  split; [reflexivity|].
  apply (proj1 (fetch_sweeps_cache "1722986DCAA8" 600000 600001 600002
                  sample_cached_world sample_doc eq_refl eq_refl)
           (cacheKey "1722986DCAA8")).
  reflexivity.
Defined.

(** X6. After a lookup has fetched a stored code, the next lookup of the
    code within the TTL of the new entry is answered from the cache, with
    the same view, and neither queries the collection nor changes the
    state. *)
Theorem second_lookup_is_a_hit (c : string) (now t_ins t_sweep : Z)
    (now' t_ins' t_sweep' : Z) (w : world) (d : qrdoc) :
  cache_get (qrCache w) c now = None →
  findOne (db w) c = Some d →
  t_sweep - t_ins ≤ CACHE_TTL →
  now' - t_ins < CACHE_TTL →
  (getQRCodeByCodePublic c now t_ins t_sweep w).1 = Ok (project d)
  ∧ getQRCodeByCodePublic c now' t_ins' t_sweep'
      (getQRCodeByCodePublic c now t_ins t_sweep w).2
    = (Ok (project d), (getQRCodeByCodePublic c now t_ins t_sweep w).2).
Proof.
  intros Hmiss Hd Hsweep Hfresh.
  destruct (getQRCodeByCodePublic_cases c now t_ins t_sweep w)
    as [(e & He & Hlt & _)|[(_ & Hn & _)|(_ & d0 & Hd0 & Hr & Hc)]].
  - assert (cache_get (qrCache w) c now = Some (data e))
      by (apply cache_get_Some; by exists e).
    congruence.
  - congruence.
  - rewrite Hd in Hd0. injection Hd0 as <-. split; [done|].
    unfold getQRCodeByCodePublic at 1.
    assert (cache_get (qrCache (getQRCodeByCodePublic c now t_ins t_sweep w).2)
              c now' = Some (project d)) as ->; [|done].
    apply cache_get_Some.
    exists {| data := project d; timestamp := t_ins |}.
    split; [|done]. rewrite Hc.
    apply cleanupCache_lookup; [apply lookup_insert_eq|]. simpl. lia.
Qed.

Lemma second_lookup_is_a_hit_witness :
  getQRCodeByCodePublic "1722986DCAA8" 599999 599999 599999
    (getQRCodeByCodePublic "1722986DCAA8" 0 0 0 sample_world).2
  = (Ok (project sample_doc),
     (getQRCodeByCodePublic "1722986DCAA8" 0 0 0 sample_world).2).
Proof.
  apply (second_lookup_is_a_hit "1722986DCAA8" 0 0 0 599999 599999 599999
           sample_world sample_doc); [reflexivity | reflexivity | | ];
    vm_compute; [discriminate | reflexivity].
Defined.

Lemma lookup_absent_once c now t_ins t_sweep w :
  findOne (db w) c = None →
  qrCache w !! cacheKey c = None →
  c ∉ requestQueue w →
  getQRCodeByCodePublic c now t_ins t_sweep w
  = (Err "Failed to get QR code: QR code not found",
     set_queries (queries w ++ [c]) w).
Proof.
  intros Hd Hc Hq. unfold getQRCodeByCodePublic.
  rewrite (cache_get_absent _ _ _ Hc), decide_False by done.
  cbn [db set_requestQueue fetch_begin set_queries]. rewrite Hd.
  cbn. rewrite (requestQueue_restored c _ Hq). by destruct w.
Qed.

(** X7. A code that is not stored is never cached: every lookup of it
    fails as not found and sends its own query, so that [n] lookups in a
    row leave the state as it was but for [n] more queries. *)
Theorem absent_code_is_never_cached (c : string) (ts : list (Z * Z * Z))
    (w : world) :
  findOne (db w) c = None →
  qrCache w !! cacheKey c = None →
  c ∉ requestQueue w →
  lookups c ts w = set_queries (queries w ++ replicate (length ts) c) w
  ∧ ∀ now t_ins t_sweep,
      (getQRCodeByCodePublic c now t_ins t_sweep (lookups c ts w)).1
      = Err "Failed to get QR code: QR code not found".
Proof.
  intros Hd Hc Hq.
  assert (Hall : lookups c ts w
                 = set_queries (queries w ++ replicate (length ts) c) w).
  { induction ts as [|t ts IH] using rev_ind.
    - simpl. rewrite app_nil_r. by destruct w.
    - unfold lookups in *. rewrite foldl_app, IH. cbn [foldl].
      rewrite lookup_absent_once by done. cbn [snd queries set_queries].
      rewrite length_app, Nat.add_1_r, replicate_S_end.
      by rewrite (assoc_L (++)). }
  split; [done|]. intros now t_ins t_sweep.
  rewrite Hall. by rewrite lookup_absent_once.
Qed.

Lemma absent_code_is_never_cached_witness :
  lookups "000000000000" [(1, 1, 1); (2, 2, 2); (3, 3, 3)] sample_world
  = set_queries ["000000000000"; "000000000000"; "000000000000"] sample_world.
Proof.
  assert (Hq : "000000000000" ∉ requestQueue sample_world)
    by apply not_elem_of_empty.
  exact (proj1 (absent_code_is_never_cached "000000000000"
                  [(1, 1, 1); (2, 2, 2); (3, 3, 3)] sample_world
                  eq_refl eq_refl Hq)).
Defined.

(** The cache after a request other than a lookup is the cache of before,
    or the cache of before without the entry of the code. *)
Lemma write_cache r w :
  (∀ c now t_ins t_sweep, r ≠ GetCode c now t_ins t_sweep) →
  qrCache (serve w r) = qrCache w
  ∨ qrCache (serve w r) = delete (cacheKey (target r)) (qrCache w).
Proof.
  intros Hr.
  destruct r as [c now ti ts|uid c act t|c ip ua loc t1 t2|c ip ua loc t1 t2
                |c b t|user c upd|user c|user c ne np o now|user c o upd now
                |user c]; cbn [serve target].
  - by destruct (Hr c now ti ts).
  - unfold post_activate, getQRCodeByCodeForOwnership.
    destruct (findOne (db w) c) as [d|] eqn:Hd; [|by left].
    destruct (isActivated d) eqn:Ha.
    { left. destruct (owner d); [by case_decide|done]. }
    unfold activateQRCode. rewrite Hd, Ha.
    destruct (a_contact act); [by right|by left].
  - unfold post_scan, handleScan.
    destruct (findOne (db w) c) as [d|] eqn:Hd; [|by left].
    destruct (isActivated d); [|by left]. cbn [negb].
    right. apply findOne_code in Hd.
    destruct (incrementScanCount_fields ip ua
                (Some (or_default loc "Unknown")) t1 t2 d) as (_ & Hc & _).
    cbv zeta in Hc. destruct (owner _); cbn [snd sd_ipAddress sd_userAgent
                                             sd_location];
      unfold evict; cbn [qrCache set_qrCache save set_db]; by rewrite Hc, Hd.
  - unfold post_track_scan, trackScan.
    destruct (findOne (db w) c) as [d|] eqn:Hd; [|by left].
    destruct (isActivated d); [|by left]. cbn [negb].
    right. apply findOne_code in Hd.
    destruct (incrementScanCount_fields ip ua
                (Some (or_default loc "unknown")) t1 t2 d) as (_ & Hc & _).
    cbv zeta in Hc. cbn [snd sd_ipAddress sd_userAgent sd_location].
    unfold evict; cbn [qrCache set_qrCache save set_db]; by rewrite Hc, Hd.
  - unfold post_found, reportFound.
    destruct (findOne (db w) c) as [d|] eqn:Hd; [|by left].
    case_decide; [by left|]. right. apply findOne_code in Hd.
    cbn [snd]. unfold evict. cbn. by rewrite Hd.
  - left. unfold put_code. destruct (verify_ownership user c w); [done|].
    pose proof (updateQRCode_keeps_cache c upd w) as Hk.
    by destruct (updateQRCode c upd w) as [[?|?] ?].
  - left. unfold delete_code. by destruct (verify_ownership user c w).
  - left. unfold post_send_update_otp, storeUpdateOTP.
    destruct (verify_ownership user c w); [done|].
    by destruct (findOne (db w) c).
  - left. unfold post_verify_update_otp. case_decide; [|done].
    destruct (verify_ownership user c w); [done|].
    destruct (verifyUpdateOTP c o now w); [|done].
    unfold updateQRCode, clearUpdateOTP.
    destruct (findOne (db w) c) as [d|]; [|done]. cbn [snd].
    by destruct (findOne (db (save c _ w)) c).
  - left. unfold patch_toggle_status.
    destruct (verify_ownership user c w); [done|].
    pose proof (toggleQRCodeStatus_keeps_cache c
                  (if decide (status q = active) then inactive else active) w)
      as Hk.
    by destruct (toggleQRCodeStatus c _ w) as [[?|?] ?].
Qed.

(** X8. No request other than the public lookup puts anything in the
    cache or alters an entry: an entry found after such a request was
    there before it, as it is. *)
Theorem writes_never_fill_cache (r : request) (w : world) (k : string)
    (e : cache_entry) :
  (∀ c now t_ins t_sweep, r ≠ GetCode c now t_ins t_sweep) →
  qrCache (serve w r) !! k = Some e →
  qrCache w !! k = Some e.
Proof.
  intros Hr Hk. destruct (write_cache r w Hr) as [Heq|Heq]; rewrite Heq in Hk.
  - done.
  - by apply lookup_delete_Some in Hk as [_ Hk].
Qed.

Lemma writes_never_fill_cache_witness :
  qrCache sample_cached_world !! cacheKey "1722986DCAA8"
  = Some {| data := project sample_doc; timestamp := 0 |}.
Proof.
  assert (Hr : ∀ c now t_ins t_sweep,
            Toggle "u1" "1722986DCAA8" ≠ GetCode c now t_ins t_sweep)
    by discriminate.
  apply (writes_never_fill_cache (Toggle "u1" "1722986DCAA8")
           sample_cached_world _ _ Hr).
  reflexivity.
Defined.

Lemma serve_cache_ok r w : cache_ok w → cache_ok (serve w r).
Proof.
  intros Hw c e He.
  assert (Hcases : (∃ c0 now ti ts, r = GetCode c0 now ti ts)
                   ∨ (∀ c0 now ti ts, r ≠ GetCode c0 now ti ts))
    by (destruct r; [left; by eauto|right; discriminate..]).
  destruct Hcases as [(c0 & now & ti & ts & ->)|Hr].
  - cbn [serve] in He.
    assert (Hq : qrCache (get_code c0 now ti ts w).2
                 = qrCache (getQRCodeByCodePublic c0 now ti ts w).2).
    { unfold get_code.
      destruct (getQRCodeByCodePublic c0 now ti ts w) as [[v|m] w'];
        [by case_decide|done]. }
    rewrite Hq in He.
    destruct (getQRCodeByCodePublic_cases c0 now ti ts w)
      as [(e0 & _ & _ & Heq)|[(_ & _ & _ & Heq)|(_ & d & Hd & _ & Heq)]].
    + rewrite Heq in He. by apply Hw.
    + rewrite Heq in He. by apply Hw.
    + rewrite Heq in He. unfold cleanupCache in He.
      apply map_lookup_filter_Some in He as [He _].
      apply lookup_insert_Some in He as [[Hk <-]|[_ He]]; [|by apply Hw].
      apply cacheKey_inj in Hk as <-. cbn. by apply findOne_code in Hd.
  - apply Hw. destruct (write_cache r w Hr) as [Heq|Heq]; rewrite Heq in He.
    + done.
    + by apply lookup_delete_Some in He as [_ He].
Qed.

(** X9. The public lookup answers about the code that was asked. Start
    from a cache in which every entry is filed under its own code (the
    empty cache is one); then after any sequence of requests a lookup of
    [c] that succeeds returns a view whose [code] is [c]. *)
Theorem lookup_returns_requested_code (rs : list request) (w : world)
    (c : string) (now t_ins t_sweep : Z) (v : view) :
  cache_ok w →
  (getQRCodeByCodePublic c now t_ins t_sweep (serve_all rs w)).1 = Ok v →
  v_code v = c.
Proof.
  intros Hw Hv.
  assert (Hok : cache_ok (serve_all rs w)).
  { clear Hv. induction rs as [|r rs IH] using rev_ind; [done|].
    rewrite serve_all_snoc. by apply serve_cache_ok. }
  destruct (getQRCodeByCodePublic_cases c now t_ins t_sweep (serve_all rs w))
    as [(e & He & _ & Heq)|[(_ & _ & Hr & _)|(_ & d & Hd & Hr & _)]].
  - rewrite Heq in Hv. injection Hv as <-. by apply Hok.
  - congruence.
  - rewrite Hr in Hv. injection Hv as <-. cbn. by apply findOne_code in Hd.
Qed.

Lemma lookup_returns_requested_code_witness :
  v_code (project sample_doc) = "1722986DCAA8".
Proof.
  assert (Hw : cache_ok sample_two_world) by (intros c e He; done).
  apply (lookup_returns_requested_code
           [GetCode "1722986DCAA8" 0 0 0; Toggle "u1" "1722986DCAA8"]
           sample_two_world "1722986DCAA8" 5 5 5 (project sample_doc) Hw).
  reflexivity.
Defined.




(* ===================================================================== *)
(** * 19. The life of a code                                              *)
(* ===================================================================== *)

Lemma spread2_lookup (a b : obj) k :
  spread2 a b !! k = match b !! k with Some v => Some v | None => a !! k end.
Proof.
  unfold spread2. rewrite lookup_union.
  by destruct (b !! k), (a !! k).
Qed.

(** The first activation of a code, spelled out. *)
Lemma post_activate_first (uid c : string) (act : activationData) (ac : obj)
    (t : Z) (w : world) (d : qrdoc) :
  findOne (db w) c = Some d →
  isActivated d = false →
  a_contact act = Some ac →
  ∃ d',
    post_activate uid c act t w
      = (reply 200 true "QR code activated successfully" (Some d'),
         evict c (save c d' w))
    ∧ findOne (db (evict c (save c d' w))) c = Some d'
    ∧ qrCache (evict c (save c d' w)) !! cacheKey c = None
    ∧ isActivated d' = true ∧ owner d' = Some uid
    ∧ activationDate d' = Some t
    ∧ (∀ k, details d' !! k
            = match opt_obj (a_details act) !! k with
              | Some v => Some v
              | None => details d !! k
              end)
    ∧ (∀ k, k ≠ "location" →
            contact d' !! k
            = match ac !! k with Some v => Some v | None => contact d !! k end)
    ∧ (∃ v, contact d' !! "location" = Some v ∧ truthy v = true)
    ∧ (∀ k, settings d' !! k
            = match opt_obj (a_settings act) !! k with
              | Some v => Some v
              | None => settings d !! k
              end)
    ∧ set_settings (settings d) (set_contact (contact d) (set_details (details d)
        (set_owner (owner d) (set_activationDate (activationDate d)
           (set_isActivated false d'))))) = d.
Proof.
  intros Hd Ha Hac. unfold post_activate, getQRCodeByCodeForOwnership.
  rewrite Hd, Ha. unfold activateQRCode. rewrite Hd, Ha, Hac.
  eexists. split; [reflexivity|].
  split; [apply findOne_save; cbn; by apply findOne_code in Hd|].
  split; [apply lookup_delete_eq|].
  cbn [isActivated owner activationDate details contact settings
       set_settings set_contact set_details set_owner set_activationDate
       set_isActivated].
  split; [done|]. split; [done|]. split; [done|].
  split; [intros k; apply spread2_lookup|].
  split; [intros k Hk; rewrite lookup_insert_ne by done; apply spread2_lookup|].
  split.
  { rewrite lookup_insert_eq. eexists. split; [done|].
    destruct (ac !! "location") as [v|]; [|done].
    by destruct (truthy v) eqn:Hv. }
  split; [intros k; apply spread2_lookup|].
  rewrite <- Ha. by destruct d.
Qed.

(** X11. The first activation of a stored code succeeds for any user:
    the document becomes activated and owned by that user, with the time
    of the request as activation date; [details], [contact] and [settings]
    are merged key by key, a key of the request winning over the stored
    one and a stored key that the request does not have staying; the
    contact always gets a [location], the one of the request or the empty
    one; nothing else changes, and the cache entry of the code is gone. *)
Theorem activation_merges (uid c : string) (act : activationData) (ac : obj)
    (t : Z) (w : world) (d : qrdoc) :
  findOne (db w) c = Some d →
  isActivated d = false →
  a_contact act = Some ac →
  ∃ d',
    post_activate uid c act t w
      = (reply 200 true "QR code activated successfully" (Some d'),
         evict c (save c d' w))
    ∧ findOne (db (evict c (save c d' w))) c = Some d'
    ∧ qrCache (evict c (save c d' w)) !! cacheKey c = None
    ∧ isActivated d' = true ∧ owner d' = Some uid
    ∧ activationDate d' = Some t
    ∧ (∀ k, details d' !! k
            = match opt_obj (a_details act) !! k with
              | Some v => Some v
              | None => details d !! k
              end)
    ∧ (∀ k, k ≠ "location" →
            contact d' !! k
            = match ac !! k with Some v => Some v | None => contact d !! k end)
    ∧ (∃ v, contact d' !! "location" = Some v ∧ truthy v = true)
    ∧ (∀ k, settings d' !! k
            = match opt_obj (a_settings act) !! k with
              | Some v => Some v
              | None => settings d !! k
              end)
    ∧ set_settings (settings d) (set_contact (contact d) (set_details (details d)
        (set_owner (owner d) (set_activationDate (activationDate d)
           (set_isActivated false d'))))) = d.
Proof. apply post_activate_first. Qed.

Lemma activation_merges_witness :
  ∃ d',
    post_activate "u9" "1722986DCAA8" no_activation 50 sample_fresh_world
      = (reply 200 true "QR code activated successfully" (Some d'),
         evict "1722986DCAA8" (save "1722986DCAA8" d' sample_fresh_world))
    ∧ owner d' = Some "u9"
    ∧ details d' !! "color" = Some (JStr "red").
Proof.
  destruct (activation_merges "u9" "1722986DCAA8" no_activation ∅ 50
              sample_fresh_world
              (set_owner None (set_activationDate None
                 (set_isActivated false sample_doc)))
              eq_refl eq_refl eq_refl)
    as (d' & H1 & _ & _ & _ & H5 & _ & H7 & _).
  exists d'. split; [exact H1|]. split; [exact H5|].
  rewrite H7. reflexivity.
Defined.

(** X12. Activation is first come, first served: once a user has
    activated a code, every later activation request for it, with any data
    and at any time, changes nothing; it answers that user with the
    document as stored and refuses every other user. *)
Theorem activation_is_first_come (uid c : string) (act : activationData)
    (ac : obj) (t : Z) (w : world) (d : qrdoc) :
  findOne (db w) c = Some d →
  isActivated d = false →
  a_contact act = Some ac →
  ∃ d1,
    body (post_activate uid c act t w).1 = Some d1
    ∧ ∀ (uid' : string) (act' : activationData) (t' : Z),
        post_activate uid' c act' t' (post_activate uid c act t w).2
        = (if decide (uid' = uid)
           then reply 200 true "QR code is already activated by you" (Some d1)
           else reply 400 false
                  "This QR code has already been activated by another user"
                  None,
           (post_activate uid c act t w).2).
Proof.
  intros Hd Ha Hac.
  destruct (post_activate_first uid c act ac t w d Hd Ha Hac)
    as (d1 & Hp & Hf & _ & Ha1 & Ho1 & _).
  exists d1. rewrite Hp. cbn [fst snd body reply]. split; [done|].
  intros uid' act' t'. unfold post_activate, getQRCodeByCodeForOwnership.
  rewrite Hf, Ha1, Ho1.
  destruct (decide (uid = uid')) as [->|Hne].
  - by rewrite decide_True.
  - by rewrite decide_False by congruence.
Qed.

Lemma activation_is_first_come_witness :
  ∃ d1,
    body (post_activate "u9" "1722986DCAA8" no_activation 50
            sample_fresh_world).1 = Some d1
    ∧ post_activate "u8" "1722986DCAA8" no_activation 60
        (post_activate "u9" "1722986DCAA8" no_activation 50
           sample_fresh_world).2
      = (reply 400 false
           "This QR code has already been activated by another user" None,
         (post_activate "u9" "1722986DCAA8" no_activation 50
            sample_fresh_world).2).
Proof.
  destruct (activation_is_first_come "u9" "1722986DCAA8" no_activation ∅ 50
              sample_fresh_world
              (set_owner None (set_activationDate None
                 (set_isActivated false sample_doc)))
              eq_refl eq_refl eq_refl) as (d1 & H1 & H2).
  exists d1. split; [exact H1|].
  exact (H2 "u8" no_activation 60).
Defined.

Lemma db_evict k w : db (evict k w) = db w.
Proof. reflexivity. Qed.

Lemma scan_many_fields ss d :
  code (scan_many ss d) = code d
  ∧ isActivated (scan_many ss d) = isActivated d
  ∧ scanCount (scan_many ss d) = scanCount d + Z.of_nat (length ss).
Proof.
  induction ss as [|s ss IH] using rev_ind.
  - simpl. split; [done|]. split; [done|]. lia.
  - rewrite scan_many_snoc. unfold scan_once.
    destruct (incrementScanCount_fields (sd_ipAddress s.1) (sd_userAgent s.1)
                (sd_location s.1) s.2.1 s.2.2 (scan_many ss d))
      as (_ & Hc & _ & _ & _ & _ & _ & _ & Ha & _ & _ & _ & _ & Hn & _).
    cbv zeta in Hc, Ha, Hn. destruct IH as (IH1 & IH2 & IH3).
    rewrite Hc, Ha, Hn, IH1, IH2, IH3, length_app. simpl.
    split; [done|]. split; [done|]. lia.
Qed.

Lemma trackScan_activated c s w d :
  findOne (db w) c = Some d →
  isActivated d = true →
  trackScan c s.1 s.2.1 s.2.2 w
  = (Ok (scanCount d + 1, Some s.2.1),
     evict c (save c (scan_once d s) w)).
Proof.
  intros Hd Ha. unfold trackScan. rewrite Hd, Ha. cbn [negb].
  destruct (incrementScanCount_fields (sd_ipAddress s.1) (sd_userAgent s.1)
              (sd_location s.1) s.2.1 s.2.2 d)
    as (_ & Hc & _ & _ & _ & _ & _ & _ & _ & _ & _ & _ & _ & Hn & Hl).
  cbv zeta in Hc, Hn, Hl. rewrite Hc, Hn, Hl.
  by rewrite (findOne_code _ _ _ Hd).
Qed.

(** X13. Scans add up: [n] calls of [trackScan] on an activated code
    store the document that [n] calls of [incrementScanCount] give, so the
    counter has grown by [n]; each call returns the counter that it has
    reached and the time of the scan. *)
Theorem scans_accumulate (c : string) (ss : list (scanData * (Z * Z)))
    (w : world) (d : qrdoc) :
  findOne (db w) c = Some d →
  isActivated d = true →
  findOne (db (track_all c ss w)) c = Some (scan_many ss d)
  ∧ scanCount (scan_many ss d) = scanCount d + Z.of_nat (length ss)
  ∧ ∀ s, (trackScan c s.1 s.2.1 s.2.2 (track_all c ss w)).1
         = Ok (scanCount d + Z.of_nat (length ss) + 1, Some s.2.1).
Proof.
  intros Hd Ha.
  assert (Hall : findOne (db (track_all c ss w)) c = Some (scan_many ss d)).
  { induction ss as [|s ss IH] using rev_ind; [done|].
    unfold track_all in *. rewrite foldl_app. cbn [foldl].
    destruct (scan_many_fields ss d) as (Hc & Ha' & _).
    rewrite (trackScan_activated c s _ _ IH) by congruence.
    cbn [snd]. rewrite scan_many_snoc.
    apply findOne_save. unfold scan_once.
    destruct (incrementScanCount_fields (sd_ipAddress s.1) (sd_userAgent s.1)
                (sd_location s.1) s.2.1 s.2.2 (scan_many ss d))
      as (_ & Hc' & _).
    cbv zeta in Hc'. rewrite Hc', Hc. by apply findOne_code in Hd. }
  destruct (scan_many_fields ss d) as (Hc & Ha' & Hn).
  split; [done|]. split; [done|]. intros s.
  rewrite (trackScan_activated c s _ _ Hall) by congruence.
  cbn [fst]. by rewrite Hn.
Qed.

Lemma scans_accumulate_witness :
  scanCount <$> findOne
    (db (track_all "1722986DCAA8" (replicate 3 one_more_scan) sample_world))
    "1722986DCAA8" = Some 3.
Proof.
  destruct (scans_accumulate "1722986DCAA8" (replicate 3 one_more_scan)
              sample_world sample_doc eq_refl eq_refl) as (H1 & H2 & _).
  rewrite H1. cbn [fmap option_fmap option_map]. rewrite H2. reflexivity.
Defined.

(** X14. The first report of a find wins: it marks the code as found
    with the time of the request, whether or not the code is activated,
    and from then on every report for the code is refused as already found
    and changes nothing, so the first finder stays on record. *)
Theorem first_report_wins (c : string) (b : gmap string string) (t : Z)
    (w : world) (d : qrdoc) :
  findOne (db w) c = Some d →
  status d ≠ found →
  ∃ d1,
    (post_found c b t w).1
      = reply 200 true "Item/Pet reported as found successfully" (Some d1)
    ∧ findOne (db (post_found c b t w).2) c = Some d1
    ∧ status d1 = found
    ∧ (∃ f, foundBy d1 = Some f ∧ foundDate f = t)
    ∧ ∀ (b' : gmap string string) (t' : Z),
        post_found c b' t' (post_found c b t w).2
        = (reply 400 false
             "Failed to report as found: Item/Pet is already marked as found"
             None,
           (post_found c b t w).2).
Proof.
  intros Hd Hs.
  destruct (post_found c b t w) as [r1 w1] eqn:Hp. cbn [fst snd].
  unfold post_found, reportFound in Hp.
  rewrite Hd, decide_False in Hp by done. injection Hp as <- <-.
  eexists. split; [reflexivity|].
  split; [apply findOne_save; cbn; by apply findOne_code in Hd|].
  split; [done|]. split; [by eexists|].
  intros b' t'. unfold post_found, reportFound.
  rewrite db_evict, findOne_save by (cbn; by apply findOne_code in Hd).
  rewrite decide_True; [done|reflexivity].
Qed.

Lemma first_report_wins_witness :
  post_found "1722986DCAA8" ∅ 3000
    (post_found "1722986DCAA8" validated_found_body 2000 sample_world).2
  = (reply 400 false
       "Failed to report as found: Item/Pet is already marked as found" None,
     (post_found "1722986DCAA8" validated_found_body 2000 sample_world).2).
Proof.
  assert (Hs : status sample_doc ≠ found) by discriminate.
  destruct (first_report_wins "1722986DCAA8" validated_found_body 2000
              sample_world sample_doc eq_refl Hs)
    as (d1 & _ & _ & _ & _ & H).
  exact (H ∅ 3000).
Defined.



(** X16. [deactivateQRCode] reopens a code. It keeps the owner, the
    counter and the history but sets the status to [inactive] and clears
    the activation, so that scans are refused as not activated, and the
    next activation request of any user succeeds and makes that user the
    owner, the status staying [inactive]. *)
Theorem deactivation_reopens_code (c : string) (w : world) (d : qrdoc) :
  findOne (db w) c = Some d →
  findOne (db (deactivateQRCode c w).2) c
    = Some (set_isActivated false (set_status inactive d))
  ∧ (∀ sd t1 t2,
       handleScan c sd t1 t2 (deactivateQRCode c w).2
       = (Err "Failed to handle scan: QR code is not activated yet",
          (deactivateQRCode c w).2))
  ∧ (∀ uid act ac t, a_contact act = Some ac →
       ∃ d', (post_activate uid c act t (deactivateQRCode c w).2).1
             = reply 200 true "QR code activated successfully" (Some d')
             ∧ owner d' = Some uid ∧ isActivated d' = true
             ∧ status d' = inactive
             ∧ scanCount d' = scanCount d
             ∧ scanHistory d' = scanHistory d).
Proof.
  intros Hd.
  assert (Hf : findOne (db (deactivateQRCode c w).2) c
               = Some (set_isActivated false (set_status inactive d))).
  { unfold deactivateQRCode. rewrite Hd. cbn [snd].
    apply findOne_save. cbn. by apply findOne_code in Hd. }
  split; [done|]. split.
  - intros sd t1 t2. unfold handleScan. by rewrite Hf.
  - intros uid act ac t Hac.
    destruct (post_activate_first uid c act ac t _ _ Hf eq_refl Hac)
      as (d' & Hp & _ & _ & Ha & Ho & _ & _ & _ & _ & _ & Hrest).
    exists d'. rewrite Hp. cbn [fst]. split; [done|]. split; [done|].
    split; [done|].
    apply (f_equal status) in Hrest as Hs.
    apply (f_equal scanCount) in Hrest as Hn.
    apply (f_equal scanHistory) in Hrest as Hh.
    cbn in Hs, Hn, Hh. by rewrite Hs, Hn, Hh.
Qed.

Lemma deactivation_reopens_code_witness :
  ∃ d', (post_activate "u7" "1722986DCAA8" no_activation 80
           (deactivateQRCode "1722986DCAA8" sample_world).2).1
        = reply 200 true "QR code activated successfully" (Some d')
        ∧ owner d' = Some "u7" ∧ status d' = inactive.
Proof.
  destruct (deactivation_reopens_code "1722986DCAA8" sample_world sample_doc
              eq_refl) as (_ & _ & H).
  destruct (H "u7" no_activation ∅ 80 eq_refl)
    as (d' & H1 & H2 & _ & H4 & _).
  exists d'. split; [exact H1|]. split; [exact H2|exact H4].
Defined.

Lemma set_status_same d : set_status (status d) d = d.
Proof. by destruct d. Qed.

Lemma set_db_same w : set_db (db w) w = w.
Proof. by destruct w. Qed.

Lemma patch_toggle_status_owner user c w d :
  findOne (db w) c = Some d →
  owner d = Some user →
  (patch_toggle_status user c w).2
  = save c (set_status (if decide (status d = active) then inactive else active) d) w.
Proof.
  intros Hd Ho. unfold patch_toggle_status.
  rewrite (verify_ownership_owner user c w d Hd Ho).
  unfold toggleQRCodeStatus. by rewrite Hd.
Qed.

(** X17. Two toggles by the owner give an [active] or [inactive] code its
    status back, and with it the whole state of before; a [found] or
    [suspended] code is [inactive] after two toggles. *)
Theorem toggle_twice (user c : string) (w : world) (d : qrdoc) :
  findOne (db w) c = Some d →
  owner d = Some user →
  findOne (db (patch_toggle_status user c (patch_toggle_status user c w).2).2) c
    = Some (set_status (if decide (status d = active) then active else inactive) d)
  ∧ (status d = active ∨ status d = inactive →
     (patch_toggle_status user c (patch_toggle_status user c w).2).2 = w).
Proof.
  intros Hd Ho.
  pose proof (findOne_code _ _ _ Hd) as Hc.
  rewrite (patch_toggle_status_owner user c w d Hd Ho).
  set (d1 := set_status (if decide (status d = active) then inactive else active) d).
  assert (Hd1 : findOne (db (save c d1 w)) c = Some d1)
    by (by apply findOne_save).
  rewrite (patch_toggle_status_owner user c _ d1 Hd1 Ho).
  assert (Hd2 : set_status (if decide (status d1 = active) then inactive else active) d1
                = set_status (if decide (status d = active) then active else inactive) d).
  { subst d1. by destruct (status d). }
  rewrite Hd2. split; [by apply findOne_save|].
  intros Hs. unfold save. cbn [db set_db].
  rewrite insert_insert_eq.
  assert (Hsame : set_status (if decide (status d = active) then active else inactive) d = d).
  { clear -Hs. destruct d; cbn in *. by destruct Hs as [->| ->]. }
  rewrite Hsame, (insert_id _ _ _ (findOne_lookup _ _ _ Hd)).
  destruct w. reflexivity.
Qed.

Lemma toggle_twice_witness :
  (patch_toggle_status "u1" "1722986DCAA8"
     (patch_toggle_status "u1" "1722986DCAA8" sample_two_world).2).2
  = sample_two_world.
Proof.
  destruct (toggle_twice "u1" "1722986DCAA8" sample_two_world sample_doc
              eq_refl eq_refl) as [_ H].
  apply H. by left.
Defined.

(** X18. [DELETE /:code] by the owner removes the document and nothing
    else: the code is then unknown to every later request, and a second
    delete fails as not found. The cache is not touched, so an entry of
    the code that is younger than the TTL is still what the public lookup
    returns; once there is no such entry, [GET /:code] answers 404. *)
Theorem delete_removes_document (user c : string) (w : world) (d : qrdoc) :
  findOne (db w) c = Some d →
  owner d = Some user →
  (delete_code user c w).1 = reply 200 true "QR code deleted successfully" None
  ∧ (delete_code user c w).2 = set_db (delete c (db w)) w
  ∧ findOne (db (delete_code user c w).2) c = None
  ∧ delete_code user c (delete_code user c w).2
    = (reply 500 false "Failed to get QR code: QR code not found" None,
       (delete_code user c w).2)
  ∧ (∀ e now t_ins t_sweep,
       qrCache w !! cacheKey c = Some e → now - timestamp e < CACHE_TTL →
       (getQRCodeByCodePublic c now t_ins t_sweep (delete_code user c w).2).1
       = Ok (data e))
  ∧ (∀ now t_ins t_sweep,
       cache_get (qrCache w) c now = None →
       (get_code c now t_ins t_sweep (delete_code user c w).2).1
       = reply 404 false "Failed to get QR code: QR code not found" None).
Proof.
  intros Hd Ho.
  assert (Hdel : delete_code user c w
                 = (reply 200 true "QR code deleted successfully" None,
                    set_db (delete c (db w)) w)).
  { unfold delete_code.
    by rewrite (verify_ownership_owner user c w d Hd Ho). }
  rewrite Hdel. cbn [fst snd].
  assert (Hf : findOne (db (set_db (delete c (db w)) w)) c = None).
  { unfold findOne. cbn [db set_db]. by rewrite lookup_delete_eq. }
  split; [done|]. split; [done|]. split; [done|]. split.
  { unfold delete_code, verify_ownership, getQRCodeByCodeForOwnership.
    by rewrite Hf. }
  split.
  - intros e now t_ins t_sweep He Hlt. unfold getQRCodeByCodePublic.
    cbn [qrCache set_db].
    assert (cache_get (qrCache w) c now = Some (data e)) as ->; [|done].
    apply cache_get_Some. by exists e.
  - intros now t_ins t_sweep Hmiss. unfold get_code.
    destruct (getQRCodeByCodePublic_cases c now t_ins t_sweep
                (set_db (delete c (db w)) w))
      as [(e & He & Hlt & _)|[(_ & _ & Hr & _)|(_ & d0 & Hd0 & _)]].
    + cbn [qrCache set_db] in He.
      assert (cache_get (qrCache w) c now = Some (data e))
        by (apply cache_get_Some; by exists e).
      congruence.
    + destruct (getQRCodeByCodePublic _ _ _ _ _) as [r w'].
      cbn [fst] in Hr. by subst r.
    + congruence.
Qed.

Lemma delete_removes_document_witness :
  findOne (db (delete_code "u1" "1722986DCAA8" sample_cached_world).2)
    "1722986DCAA8" = None
  ∧ (getQRCodeByCodePublic "1722986DCAA8" 1000 1000 1000
       (delete_code "u1" "1722986DCAA8" sample_cached_world).2).1
    = Ok (project sample_doc)
  ∧ (get_code "1722986DCAA8" 600000 600000 600000
       (delete_code "u1" "1722986DCAA8" sample_cached_world).2).1
    = reply 404 false "Failed to get QR code: QR code not found" None.
Proof.
  destruct (delete_removes_document "u1" "1722986DCAA8" sample_cached_world
              sample_doc eq_refl eq_refl) as (_ & _ & H3 & _ & H5 & H6).
  split; [exact H3|]. split.
  - apply (H5 {| data := project sample_doc; timestamp := 0 |} 1000 1000 1000);
      [reflexivity|]. vm_compute. reflexivity.
  - apply H6. reflexivity.
Defined.

(* ===================================================================== *)
(** * 20. The one-time code, from issue to use                            *)
(* ===================================================================== *)

Lemma storeUpdateOTP_found c o exp ne np w d :
  findOne (db w) c = Some d →
  findOne (db (storeUpdateOTP c o exp ne np w)) c
  = Some (set_updateOTP (Some {| otp_code := Some o; expires := Some exp;
                                 newEmail := ne; newPhone := np |}) d).
Proof.
  intros Hd. unfold storeUpdateOTP. rewrite Hd.
  apply findOne_save. cbn. by apply findOne_code in Hd.
Qed.

(** When a code that has just been stored verifies. *)
Lemma storeUpdateOTP_verify c w0 d0 o0 exp0 ne0 np0 o' now :
  findOne (db w0) c = Some d0 →
  verifyUpdateOTP c o' now (storeUpdateOTP c o0 exp0 ne0 np0 w0) = true
  ↔ o' = o0 ∧ now < exp0.
Proof.
  intros Hd0. rewrite verifyUpdateOTP_true.
  rewrite (storeUpdateOTP_found c o0 exp0 ne0 np0 w0 d0 Hd0). split.
  - intros (d1 & u & e & [= <-] & Hu & Hc & He & Hlt).
    cbn in Hu. injection Hu as <-. cbn in Hc, He.
    by simplify_eq.
  - intros [-> Hlt]. by eexists _, _, exp0.
Qed.

(** X19. A stored one-time code verifies exactly for the string that was
    stored and strictly before its expiry; storing again replaces the code
    and the expiry; and for a code that is not in the collection storing
    does nothing and nothing verifies. *)
Theorem stored_otp_verifies (c o : string) (exp : Z) (ne np : option string)
    (w : world) :
  (∀ d, findOne (db w) c = Some d →
     (∀ o' now,
        verifyUpdateOTP c o' now (storeUpdateOTP c o exp ne np w) = true
        ↔ o' = o ∧ now < exp)
     ∧ (∀ o2 exp2 ne2 np2 o' now,
          verifyUpdateOTP c o' now
            (storeUpdateOTP c o2 exp2 ne2 np2 (storeUpdateOTP c o exp ne np w))
          = true
          ↔ o' = o2 ∧ now < exp2))
  ∧ (findOne (db w) c = None →
       storeUpdateOTP c o exp ne np w = w
       ∧ ∀ o' now, verifyUpdateOTP c o' now w = false).
Proof.
  split.
  - intros d Hd. split.
    + intros o' now. by apply (storeUpdateOTP_verify c w d).
    + intros o2 exp2 ne2 np2 o' now.
      apply (storeUpdateOTP_verify c _ _ _ _ _ _ _ _
               (storeUpdateOTP_found c o exp ne np w d Hd)).
  - intros Hd. split.
    + unfold storeUpdateOTP. by rewrite Hd.
    + intros o' now. unfold verifyUpdateOTP. by rewrite Hd.
Qed.

Lemma stored_otp_verifies_witness :
  verifyUpdateOTP "1722986DCAA8" "123456" 99
    (storeUpdateOTP "1722986DCAA8" "123456" 100 None None sample_world) = true
  ∧ storeUpdateOTP "000000000000" "123456" 100 None None sample_world
    = sample_world.
Proof.
  destruct (stored_otp_verifies "1722986DCAA8" "123456" 100 None None
              sample_world) as [H _].
  destruct (H sample_doc eq_refl) as [H1 _].
  destruct (stored_otp_verifies "000000000000" "123456" 100 None None
              sample_world) as [_ H2].
  split.
  - apply H1. split; [reflexivity|]. vm_compute. reflexivity.
  - apply (H2 eq_refl).
Defined.

(** X20. The code that [POST /:code/send-update-otp] issues at time [t0]
    is good for ten minutes. A verification request of the owner with that
    code before [t0 + 600000] applies the patch and answers with the
    updated document; at [t0 + 600000] or later it is refused as invalid
    or expired. A request with another six-character string, at any time,
    is refused too, and a refused request changes nothing, so the right
    code can still be used after any number of wrong ones. *)
Theorem otp_window (user c : string) (ne np : option string) (o : string)
    (t0 : Z) (upd : updateData) (now : Z) (w : world) (d : qrdoc) :
  findOne (db w) c = Some d →
  owner d = Some user →
  String.length o = 6%nat →
  (now < t0 + 600000 →
     ∃ d', (post_verify_update_otp user c o upd now
              (post_send_update_otp user c ne np o t0 w).2).1
           = reply 200 true "Contact information updated successfully" (Some d')
           ∧ details d' = default (details d) (u_details upd)
           ∧ contact d' = default (contact d) (u_contact upd)
           ∧ settings d' = default (settings d) (u_settings upd))
  ∧ (t0 + 600000 ≤ now →
       post_verify_update_otp user c o upd now
         (post_send_update_otp user c ne np o t0 w).2
       = (reply 400 false "Invalid or expired OTP" None,
          (post_send_update_otp user c ne np o t0 w).2))
  ∧ (∀ o', o' ≠ o → String.length o' = 6%nat →
       post_verify_update_otp user c o' upd now
         (post_send_update_otp user c ne np o t0 w).2
       = (reply 400 false "Invalid or expired OTP" None,
          (post_send_update_otp user c ne np o t0 w).2)).
Proof.
  intros Hd Ho Hlen.
  assert (Hsend : (post_send_update_otp user c ne np o t0 w).2
                  = storeUpdateOTP c o (t0 + 10 * 60 * 1000) ne np w).
  { unfold post_send_update_otp.
    by rewrite (verify_ownership_owner user c w d Hd Ho). }
  rewrite Hsend.
  pose proof (storeUpdateOTP_found c o (t0 + 10 * 60 * 1000) ne np w d Hd)
    as Hd1.
  set (w1 := storeUpdateOTP c o (t0 + 10 * 60 * 1000) ne np w) in *.
  set (d1 := set_updateOTP _ d) in Hd1.
  assert (Ho1 : owner d1 = Some user) by done.
  assert (Hv1 : ∀ o' now,
            verifyUpdateOTP c o' now w1 = true
            ↔ o' = o ∧ now < t0 + 10 * 60 * 1000)
    by (intros o' now'; by apply (storeUpdateOTP_verify c w d)).
  split; [|split].
  - intros Hlt. unfold post_verify_update_otp.
    rewrite decide_True by done.
    rewrite (verify_ownership_owner user c w1 d1 Hd1 Ho1).
    rewrite (proj2 (Hv1 o now)) by (split; [done|lia]).
    unfold updateQRCode. rewrite Hd1. cbn [fst].
    eexists. split; [done|].
    by destruct upd as [[?|] [?|] [?|]].
  - intros Hge. unfold post_verify_update_otp.
    rewrite decide_True by done.
    rewrite (verify_ownership_owner user c w1 d1 Hd1 Ho1).
    destruct (verifyUpdateOTP c o now w1) eqn:Hver; [|done].
    apply Hv1 in Hver as [_ Hlt]. lia.
  - intros o' Hne Hlen'. unfold post_verify_update_otp.
    rewrite decide_True by done.
    rewrite (verify_ownership_owner user c w1 d1 Hd1 Ho1).
    destruct (verifyUpdateOTP c o' now w1) eqn:Hver; [|done].
    by apply Hv1 in Hver as [? _].
Qed.

Lemma otp_window_witness :
  (∃ d', (post_verify_update_otp "u1" "1722986DCAA8" "123456" rename_patch
            604999 sample_otp_world).1
         = reply 200 true "Contact information updated successfully" (Some d')
         ∧ details d' = {[ "name" := JStr "Suitcase" ]})
  ∧ post_verify_update_otp "u1" "1722986DCAA8" "123456" rename_patch 605000
      sample_otp_world
    = (reply 400 false "Invalid or expired OTP" None, sample_otp_world).
Proof.
  destruct (otp_window "u1" "1722986DCAA8" (Some "new@example.com") None
              "123456" 5000 rename_patch 604999 sample_world sample_doc
              eq_refl eq_refl eq_refl) as (Hin & _ & _).
  destruct (otp_window "u1" "1722986DCAA8" (Some "new@example.com") None
              "123456" 5000 rename_patch 605000 sample_world sample_doc
              eq_refl eq_refl eq_refl) as (_ & Hout & _).
  split.
  - assert (Hlt : 604999 < 5000 + 600000) by (vm_compute; reflexivity).
    destruct (Hin Hlt) as (d' & H1 & H2 & _).
    exists d'. split; [exact H1 | exact H2].
  - apply Hout. vm_compute. discriminate.
Defined.

(* ===================================================================== *)
(** * 21. Any schedule of lookups                                         *)
(* ===================================================================== *)


Lemma count_cons {A} (f : A → bool) x l :
  count f (x :: l) = ((if f x then 1 else 0) + count f l)%nat.
Proof.
  unfold count. destruct (f x) eqn:Hx.
  - by rewrite filter_cons_True.
  - rewrite filter_cons_False; [done|]. by rewrite Hx.
Qed.




Lemma sent_app c w x :
  sent c (set_queries (queries w ++ [x]) w)
  = (sent c w + (if decide (x = c) then 1 else 0))%nat.
Proof.
  unfold sent, count. cbn [queries set_queries].
  rewrite filter_app, length_app. f_equal.
  case_decide as Hx.
  - rewrite filter_cons_True; [done|]. by apply bool_decide_eq_true_2.
  - rewrite filter_cons_False; [done|].
    by rewrite bool_decide_eq_false_2.
Qed.

Lemma step_sent c l e :
  (sent c (state (step l e))
   + (if decide (c ∈ requestQueue (state l)) then 1 else 0)
   ≤ sent c (state l) + (if settles c e then 1 else 0)
     + (if decide (c ∈ requestQueue (state (step l e))) then 1 else 0))%nat.
Proof.
  destruct e as [i c' now|c' fail t_ins t_sweep]; cbn [settles].
  - unfold step. destruct (cache_get _ _ _); [cbn [state]; lia|].
    case_decide as Hq'; cbn [state]; [lia|].
    change (sent c (set_requestQueue ({[c']} ∪ requestQueue (state l))
                      (fetch_begin c' (state l))))
      with (sent c (set_queries (queries (state l) ++ [c']) (state l))).
    rewrite sent_app. cbn [requestQueue set_requestQueue].
    destruct (decide (c' = c)) as [->|Hne].
    + rewrite (decide_False (P := c ∈ requestQueue (state l))) by done.
      rewrite decide_True; [lia|].
      apply elem_of_union_l. by apply elem_of_singleton.
    + destruct (decide (c ∈ requestQueue (state l))) as [Hc|Hc].
      * rewrite decide_True; [lia|]. by apply elem_of_union_r.
      * lia.
  - destruct (decide (c' ∈ requestQueue (state l))) as [Hq'|Hq'].
    + rewrite step_settle by done. cbv zeta. cbn [state].
      change (sent c (set_requestQueue ?q ?x)) with (sent c x).
      unfold sent at 1. rewrite fetch_settle_queries. fold (sent c (state l)).
      cbn [requestQueue set_requestQueue].
      rewrite fetch_settle_requestQueue.
      destruct (decide (c' = c)) as [->|Hne].
      * rewrite bool_decide_eq_true_2 by done.
        destruct (decide (c ∈ requestQueue (state l))); [|done].
        destruct (decide (c ∈ requestQueue (state l) ∖ {[c]})); lia.
      * destruct (decide (c ∈ requestQueue (state l))) as [Hc|Hc]; [|lia].
        rewrite (decide_True (P := c ∈ requestQueue (state l) ∖ {[c']}));
          [lia|].
        apply elem_of_difference. split; [done|].
        rewrite elem_of_singleton. congruence.
    + unfold step. rewrite decide_False by done.
      destruct (bool_decide (c' = c)); lia.
Qed.

(** X22. However arrivals and settlements of any codes interleave, the
    collection receives at most one query for a code per settlement of
    that code, plus one that may be in flight: between two settlements of
    a code all its lookups share one query. *)
Theorem queries_bounded_by_settlements (c : string) (es : list event)
    (l : loop) :
  (sent c (state (run es l))
   ≤ sent c (state l) + count (settles c) es + 1)%nat.
Proof.
  assert (H : (sent c (state (run es l))
               + (if decide (c ∈ requestQueue (state l)) then 1 else 0)
               ≤ sent c (state l) + count (settles c) es
                 + (if decide (c ∈ requestQueue (state (run es l)))
                    then 1 else 0))%nat).
  { revert l. induction es as [|e es IH]; intros l.
    - unfold count. simpl. lia.
    - rewrite run_cons, count_cons.
      pose proof (IH (step l e)). pose proof (step_sent c l e). lia. }
  destruct (decide (c ∈ requestQueue (state l))),
           (decide (c ∈ requestQueue (state (run es l)))); lia.
Qed.

(* ===================================================================== *)
(** * 22. The generated code                                              *)
(* ===================================================================== *)

Lemma toUpperCase_length s : String.length (toUpperCase s) = String.length s.
Proof. induction s as [|a s IH]; [done|]. simpl. by rewrite IH. Qed.

Lemma substring_length n s :
  String.length (String.substring 0 n s) = (n `min` String.length s)%nat.
Proof.
  revert s. induction n as [|n IH]; intros [|a s]; simpl; try done.
  by rewrite IH.
Qed.

Lemma all_chars_substring f n s :
  all_chars f s = true → all_chars f (String.substring 0 n s) = true.
Proof.
  revert s. induction n as [|n IH]; intros [|a s]; simpl; try done.
  intros [Ha Hs]%andb_prop. by rewrite Ha, IH.
Qed.

Lemma upper_uuid_char a :
  uuid_char a = true → a ≠ "-"%char → code_char (upper a) = true.
Proof.
  unfold uuid_char. intros Ha Hd. apply bool_decide_eq_true_1 in Ha.
  cbn in Ha.
  repeat (apply elem_of_cons in Ha as [->|Ha]); try done.
  by apply elem_of_nil in Ha.
Qed.

Lemma all_chars_code s :
  all_chars uuid_char s = true →
  all_chars (λ a, uuid_char a && negb (bool_decide (a = "-"%char)))
    (remove_dashes s) = true.
Proof.
  induction s as [|a s IH]; [done|]. simpl.
  intros [Ha Hs]%andb_prop. case_decide as Hd; [by apply IH|].
  simpl. rewrite Ha, IH by done.
  by rewrite bool_decide_eq_false_2.
Qed.

Lemma all_chars_upper s :
  all_chars (λ a, uuid_char a && negb (bool_decide (a = "-"%char))) s = true →
  all_chars code_char (toUpperCase s) = true.
Proof.
  induction s as [|a s IH]; [done|]. simpl.
  intros [[Ha Hd]%andb_prop Hs]%andb_prop.
  rewrite IH by done. rewrite upper_uuid_char; [done|done|].
  apply negb_true_iff, bool_decide_eq_false_1 in Hd. done.
Qed.

(** X23. A generated code has at most 12 characters. From the text of a
    UUID, which is made of lower-case hexadecimal digits and dashes and
    has at least 12 digits, it has exactly 12 characters, all of them
    digits or capital letters from A to F. *)
Theorem generateUniqueCode_format (uuid : string) :
  (String.length (generateUniqueCode uuid) ≤ 12)%nat
  ∧ (all_chars uuid_char uuid = true →
     (12 ≤ String.length (remove_dashes uuid))%nat →
     String.length (generateUniqueCode uuid) = 12%nat
     ∧ all_chars code_char (generateUniqueCode uuid) = true).
Proof.
  unfold generateUniqueCode. rewrite toUpperCase_length, substring_length.
  split; [lia|]. intros Hu Hlen. split; [lia|].
  apply all_chars_upper, all_chars_substring, all_chars_code, Hu.
Qed.

Lemma generateUniqueCode_format_witness :
  generateUniqueCode sample_uuid = "1722986DCAA8"
  ∧ String.length (generateUniqueCode sample_uuid) = 12%nat
  ∧ all_chars code_char (generateUniqueCode sample_uuid) = true.
Proof.
  split; [reflexivity|].
  destruct (generateUniqueCode_format sample_uuid) as [_ H].
  apply H; [reflexivity|]. vm_compute. repeat constructor.
Defined.

(* ===================================================================== *)
(** * 23. Scans and the writes that evict                                 *)
(* ===================================================================== *)

Lemma or_unknown_or_default loc dflt :
  dflt ≠ "" → or_unknown (Some (or_default loc dflt)) = or_default loc dflt.
Proof.
  intros Hd. unfold or_unknown, or_default.
  destruct loc as [s|]; repeat case_decide; congruence.
Qed.

(** X24. A scan through [POST /:code/scan] of an activated code with an
    owner is recorded whatever the status of the code is: the counter
    grows by one, [lastScanned] is the time of the scan, the newest history
    entry has the address and agent of the request, or [unknown] where
    one is missing or empty, and the location of the body, or [Unknown];
    the status and the rest of the document stay, and the cache entry of
    the code is gone. *)
Theorem scan_is_recorded (c : string) (ip ua loc : option string) (t1 t2 : Z)
    (w : world) (d : qrdoc) :
  findOne (db w) c = Some d →
  isActivated d = true →
  is_Some (owner d) →
  ∃ d',
    post_scan c ip ua loc t1 t2 w
      = (reply 200 true "QR code scanned successfully" (Some d'),
         evict c (save c d' w))
    ∧ findOne (db (evict c (save c d' w))) c = Some d'
    ∧ qrCache (evict c (save c d' w)) !! cacheKey c = None
    ∧ scanCount d' = scanCount d + 1
    ∧ lastScanned d' = Some t1
    ∧ last (scanHistory d')
      = Some {| scannedAt := t2; ipAddress := or_unknown ip;
                userAgent := or_unknown ua;
                location := or_default loc "Unknown" |}
    ∧ status d' = status d
    ∧ set_scanHistory (scanHistory d) (set_lastScanned (lastScanned d)
        (set_scanCount (scanCount d) d')) = d.
Proof.
  intros Hd Ha [o Ho]. unfold post_scan, handleScan. rewrite Hd, Ha.
  cbn [negb sd_ipAddress sd_userAgent sd_location].
  destruct (incrementScanCount_fields ip ua (Some (or_default loc "Unknown"))
              t1 t2 d)
    as (Hid & Hc & Hty & Hown & Hde & Hco & Hse & Hs & Hact & Had & Hf & Hq
        & Hotp & Hn & Hl).
  cbv zeta in *. rewrite Hown, Ho, Hc, (findOne_code _ _ _ Hd).
  eexists. split; [reflexivity|].
  split; [rewrite db_evict; apply findOne_save;
          by rewrite Hc, (findOne_code _ _ _ Hd)|].
  split; [apply lookup_delete_eq|].
  split; [done|]. split; [done|]. split.
  { rewrite incrementScanCount_history, or_unknown_or_default by done.
    apply slice_last_snoc. lia. }
  split; [done|].
  destruct (incrementScanCount ip ua (Some (or_default loc "Unknown")) t1 t2 d)
    eqn:He, d. cbn in *. by subst.
Qed.

Lemma scan_is_recorded_witness :
  ∃ d',
    (post_scan "AAAABBBBCCCC" None (Some "") None 7 8 sample_two_world).1
      = reply 200 true "QR code scanned successfully" (Some d')
    ∧ status d' = inactive
    ∧ scanCount d' = 5
    ∧ last (scanHistory d')
      = Some {| scannedAt := 8; ipAddress := "unknown";
                userAgent := "unknown"; location := "Unknown" |}.
Proof.
  assert (Ho : is_Some (owner other_doc)) by (by eexists).
  destruct (scan_is_recorded "AAAABBBBCCCC" None (Some "") None 7 8
              sample_two_world other_doc eq_refl eq_refl Ho)
    as (d' & H1 & _ & _ & H4 & _ & H6 & H7 & _).
  exists d'. rewrite H1. split; [reflexivity|].
  split; [exact H7|]. split; [exact H4 | exact H6].
Defined.

Lemma evicting_cases r w :
  evicts r = true →
  serve w r = w
  ∨ ∃ d', code d' = target r
          ∧ serve w r = evict (target r) (save (target r) d' w).
Proof.
  destruct r as [c now ti ts|uid c act t|c ip ua loc t1 t2|c ip ua loc t1 t2
                |c b t|user c upd|user c|user c ne np o now|user c o upd now
                |user c]; cbn [evicts serve target]; try discriminate;
    intros _.
  - unfold post_activate, getQRCodeByCodeForOwnership.
    destruct (findOne (db w) c) as [d|] eqn:Hd; [|by left].
    destruct (isActivated d) eqn:Ha.
    { left. destruct (owner d); [by case_decide|done]. }
    unfold activateQRCode. rewrite Hd, Ha.
    destruct (a_contact act); [|by left].
    right. eexists. split; [|reflexivity]. cbn. by apply findOne_code in Hd.
  - unfold post_scan, handleScan.
    destruct (findOne (db w) c) as [d|] eqn:Hd; [|by left].
    destruct (isActivated d); [|by left]. cbn [negb].
    right. apply findOne_code in Hd.
    destruct (incrementScanCount_fields ip ua
                (Some (or_default loc "Unknown")) t1 t2 d) as (_ & Hc & _).
    cbv zeta in Hc. cbn [sd_ipAddress sd_userAgent sd_location].
    rewrite Hc, Hd. eexists. split; [|by destruct (owner _)].
    by rewrite Hc.
  - unfold post_track_scan, trackScan.
    destruct (findOne (db w) c) as [d|] eqn:Hd; [|by left].
    destruct (isActivated d); [|by left]. cbn [negb].
    right. apply findOne_code in Hd.
    destruct (incrementScanCount_fields ip ua
                (Some (or_default loc "unknown")) t1 t2 d) as (_ & Hc & _).
    cbv zeta in Hc. cbn [sd_ipAddress sd_userAgent sd_location snd].
    rewrite Hc, Hd. eexists. split; [|reflexivity]. by rewrite Hc.
  - unfold post_found, reportFound.
    destruct (findOne (db w) c) as [d|] eqn:Hd; [|by left].
    case_decide; [by left|]. right. apply findOne_code in Hd.
    cbn [snd]. eexists. split; [|cbn; by rewrite Hd]. done.
Qed.

(** X25. Activation, the two scans and the report of a find keep the
    cache honest: such a request either changes nothing at all, or leaves
    no cache entry for its code, and then the next public lookup of the
    code goes to the collection and returns the projection of the document
    as the request has stored it. *)
Theorem evicting_writes_refetch (r : request) (w : world) :
  evicts r = true →
  target r ∉ requestQueue w →
  serve w r = w
  ∨ (qrCache (serve w r) !! cacheKey (target r) = None
     ∧ ∃ d', findOne (db (serve w r)) (target r) = Some d'
             ∧ ∀ now t_ins t_sweep,
                 (getQRCodeByCodePublic (target r) now t_ins t_sweep
                    (serve w r)).1 = Ok (project d')
                 ∧ queries (getQRCodeByCodePublic (target r) now t_ins t_sweep
                              (serve w r)).2
                   = queries w ++ [target r]).
Proof.
  intros Hr Hq.
  destruct (evicting_cases r w Hr) as [Hsame|(d' & Hc & Hw)]; [by left|].
  right. rewrite Hw.
  assert (Hk : qrCache (evict (target r) (save (target r) d' w))
               !! cacheKey (target r) = None) by apply lookup_delete_eq.
  assert (Hd' : findOne (db (evict (target r) (save (target r) d' w)))
                  (target r) = Some d')
    by (rewrite db_evict; by apply findOne_save).
  split; [done|]. exists d'. split; [done|].
  intros now t_ins t_sweep.
  destruct (getQRCodeByCodePublic_miss (target r) now t_ins t_sweep
              (evict (target r) (save (target r) d' w))
              (cache_get_absent _ _ _ Hk) Hq) as (Hqs & _ & _ & Hres).
  rewrite Hd' in Hres. by destruct Hres as [Hres _].
Qed.

Lemma evicting_writes_refetch_witness :
  qrCache (serve sample_cached_world
             (Scan "1722986DCAA8" None None None 5 6))
    !! cacheKey "1722986DCAA8" = None.
Proof.
  assert (Hq : target (Scan "1722986DCAA8" None None None 5 6)
               ∉ requestQueue sample_cached_world)
    by (apply (bool_decide_unpack _); by vm_compute).
  destruct (evicting_writes_refetch (Scan "1722986DCAA8" None None None 5 6)
              sample_cached_world eq_refl Hq) as [Hsame|[Hk _]].
  - apply (f_equal (λ x, scanCount <$> db x !! "1722986DCAA8")) in Hsame.
    vm_compute in Hsame. discriminate.
  - exact Hk.
Defined.
